(** * Crispex: guide extraction, scoring, off-target estimation and ranking

    A shallow embedding of the core pipeline of Crispex
    ([crispex/core/guide.py], [extract.py], [predict.py], [offtarget.py],
    [rank.py]) together with the properties its specification states.

    Conventions of the embedding:
    - a Python [str] is a [list ascii] (ASCII text, as delivered by the
      sequence fetcher); slicing, indexing, [in], [*] and [count] follow
      Python, including negative indices and out-of-range behaviour;
    - a Python [int] is a [Z];
    - a Python [float] is the rational number it denotes ([Q]), with exact
      arithmetic; all comparisons are the numerical ones;
    - code that can raise returns a [result]; code that draws random numbers
      threads the generator state explicitly;
    - a [dict] is a [gmap], a [set] a [gset]. *)

From Stdlib Require Import ZArith QArith Qabs Qround List Ascii String Bool Lia Lqa.
From Stdlib Require Import Permutation Sorted.
From stdpp Require Import gmap strings.

Import ListNotations.
Local Open Scope Z_scope.

(* ===================================================================== *)
(** * Python primitives *)
(* ===================================================================== *)

Module Py.

Abbreviation str := (list ascii).

(** String literals. *)
Definition lit (s : string) : str := list_ascii_of_string s.

(** Exceptions raised by the modelled code. *)
Inductive exn : Type :=
| IndexError
| ZeroDivisionError.

Inductive result (A : Type) : Type :=
| Ok (a : A)
| Raise (e : exn).
Arguments Ok {A} a.
Arguments Raise {A} e.

Definition bind {A B : Type} (m : result A) (k : A -> result B) : result B :=
  match m with
  | Ok a => k a
  | Raise e => Raise e
  end.

(** [len(s)] *)
Definition len (s : str) : Z := Z.of_nat (List.length s).

(** [c.upper()] on an ASCII character. *)
Definition upper_char (c : ascii) : ascii :=
  let n := nat_of_ascii c in
  if ((97 <=? n)%nat && (n <=? 122)%nat)%bool then ascii_of_nat (n - 32) else c.

(** [s.upper()] *)
Definition upper (s : str) : str := map upper_char s.

(** Equality of strings, [s == t]. *)
Fixpoint str_eqb (s t : str) : bool :=
  match s, t with
  | [], [] => true
  | c :: s', d :: t' => Ascii.eqb c d && str_eqb s' t'
  | _, _ => false
  end.

(** Slice bound normalisation: a negative bound counts from the end, and
    every bound is clamped to [0, len]. *)
Definition norm_bound (n i : Z) : Z :=
  if i <? 0 then Z.max 0 (i + n) else Z.min i n.

(** [s[lo:hi]] *)
Definition slice (s : str) (lo hi : Z) : str :=
  let a := norm_bound (len s) lo in
  let b := norm_bound (len s) hi in
  firstn (Z.to_nat (b - a)) (skipn (Z.to_nat a) s).

(** [s[:hi]] *)
Definition slice_to (s : str) (hi : Z) : str := slice s 0 hi.

(** [s[lo:]] *)
Definition slice_from (s : str) (lo : Z) : str := slice s lo (len s).

(** [s[i]]: raises IndexError out of range. *)
Definition index (s : str) (i : Z) : result ascii :=
  let j := if i <? 0 then i + len s else i in
  if (j <? 0) || (len s <=? j) then Raise IndexError
  else match nth_error s (Z.to_nat j) with
       | Some c => Ok c
       | None => Raise IndexError
       end.

(** [s.count(c)] for a one-character [c]. *)
Definition count (c : ascii) (s : str) : Z :=
  Z.of_nat (List.length (List.filter (Ascii.eqb c) s)).

(** [c * n] for a one-character string [c]: empty when [n <= 0]. *)
Definition mul (c : ascii) (n : Z) : str := repeat c (Z.to_nat n).

(** [t] is a prefix of [s]. *)
Fixpoint startswith (s t : str) {struct t} : bool :=
  match t, s with
  | [], _ => true
  | d :: t', c :: s' => Ascii.eqb c d && startswith s' t'
  | _ :: _, [] => false
  end.

(** [t in s]: substring test. *)
Fixpoint contains (t s : str) : bool :=
  startswith s t ||
  match s with
  | [] => false
  | _ :: s' => contains t s'
  end.

(** [range(n)] *)
Definition range (n : Z) : list Z := map Z.of_nat (seq 0 (Z.to_nat n)).

(** Numerical [<] on floats. *)
Definition Qltb (x y : Q) : bool :=
  match Qcompare x y with Lt => true | _ => false end.

(** [a / b] with integer operands (true division). *)
Definition truediv (a b : Z) : result Q :=
  if b =? 0 then Raise ZeroDivisionError else Ok (inject_Z a / inject_Z b)%Q.

(** [min(a, b)] and [max(a, b)]: the first argument wins ties. *)
Definition min (a b : Q) : Q := if Qltb b a then b else a.
Definition max (a b : Q) : Q := if Qltb a b then b else a.

(** [int(x)]: truncation toward zero. *)
Definition int (x : Q) : Z := Z.quot (Qnum x) (Zpos (Qden x)).

(** Nearest integer, ties to the even one. *)
Definition round_half_even (x : Q) : Z :=
  let f := Qfloor x in
  match Qcompare (x - inject_Z f) (1 # 2) with
  | Lt => f
  | Gt => f + 1
  | Eq => if Z.even f then f else f + 1
  end.

(** [round(x, 1)] *)
Definition round1 (x : Q) : Q := (inject_Z (round_half_even (x * 10)) / 10)%Q.

(** [l[lo:hi]] on a list. *)
Definition slice_list {A : Type} (l : list A) (lo hi : Z) : list A :=
  let n := Z.of_nat (List.length l) in
  let a := norm_bound n lo in
  let b := norm_bound n hi in
  firstn (Z.to_nat (b - a)) (skipn (Z.to_nat a) l).

(** [sum(xs)] *)
Definition sum (xs : list Z) : Z := fold_left Z.add xs 0.

(** [round(x, 2)] *)
Definition round2 (x : Q) : Q := (inject_Z (round_half_even (x * 100)) / 100)%Q.

End Py.

Notation "'let!' x ':=' m 'in' k" := (Py.bind m (fun x => k))
  (at level 10, x name, m at level 100, k at level 200).

(* ===================================================================== *)
(** * guide.py *)
(* ===================================================================== *)

Module GuideM.
Import Py.

(** The [Guide] dataclass. [end] is a reserved word, hence [end_]. *)
Record Guide : Type := mkGuide {
  sequence : str;
  pam : str;
  chromosome : str;
  start : Z;
  end_ : Z;
  strand : str;
  efficiency_score : Q;
  off_targets : gmap Z Z;
  gc_content : Q;
  gene_name : option str;
  exon : option Z
}.

(** Field defaults of the dataclass. *)
Definition default_off_targets : gmap Z Z :=
  <[0 := 0]> (<[1 := 0]> (<[2 := 0]> (<[3 := 0]> ∅))).

Definition new_guide (sequence pam chromosome : str) (start end_ : Z) (strand : str) : Guide :=
  mkGuide sequence pam chromosome start end_ strand 0%Q default_off_targets 0%Q None None.

Definition set_gc_content (g : Guide) (v : Q) : Guide :=
  mkGuide (sequence g) (pam g) (chromosome g) (start g) (end_ g) (strand g)
          (efficiency_score g) (off_targets g) v (gene_name g) (exon g).

Definition set_gene_name (g : Guide) (v : option str) : Guide :=
  mkGuide (sequence g) (pam g) (chromosome g) (start g) (end_ g) (strand g)
          (efficiency_score g) (off_targets g) (gc_content g) v (exon g).

Definition set_efficiency_score (g : Guide) (v : Q) : Guide :=
  mkGuide (sequence g) (pam g) (chromosome g) (start g) (end_ g) (strand g)
          v (off_targets g) (gc_content g) (gene_name g) (exon g).

Definition set_off_targets (g : Guide) (v : gmap Z Z) : Guide :=
  mkGuide (sequence g) (pam g) (chromosome g) (start g) (end_ g) (strand g)
          (efficiency_score g) v (gc_content g) (gene_name g) (exon g).

Definition full_sequence (g : Guide) : str := sequence g ++ pam g.

(** [calculate_gc_content]: returns the value and the updated guide; an
    empty sequence returns 0.0 and leaves the field alone. *)
Definition calculate_gc_content (g : Guide) : Q * Guide :=
  match sequence g with
  | [] => (0%Q, g)
  | _ =>
    let gc_count := count "G" (sequence g) + count "C" (sequence g) in
    let v := ((inject_Z gc_count / inject_Z (len (sequence g))) * 100)%Q in
    (v, set_gc_content g v)
  end.

Definition bases : list ascii := ["A"; "T"; "G"; "C"]%char.

Definition passes_quality_filters
    (g : Guide) (min_gc max_gc : Q) (max_homopolymer : Z) : bool :=
  if Qltb (gc_content g) min_gc || Qltb max_gc (gc_content g) then false
  else if existsb (fun base => contains (mul base max_homopolymer) (sequence g)) bases
  then false
  else if contains (lit "TTTT") (sequence g) then false
  else true.

End GuideM.

(* ===================================================================== *)
(** * extract.py *)
(* ===================================================================== *)

Module Extract.
Import Py GuideM.

(** [Bio.Seq.complement]: the IUPAC complement table of Biopython;
    characters outside the table are kept. *)
Definition complement_char (c : ascii) : ascii :=
  (if Ascii.eqb c "A" then "T" else if Ascii.eqb c "T" then "A"
   else if Ascii.eqb c "C" then "G" else if Ascii.eqb c "G" then "C"
   else if Ascii.eqb c "U" then "A"
   else if Ascii.eqb c "M" then "K" else if Ascii.eqb c "K" then "M"
   else if Ascii.eqb c "R" then "Y" else if Ascii.eqb c "Y" then "R"
   else if Ascii.eqb c "V" then "B" else if Ascii.eqb c "B" then "V"
   else if Ascii.eqb c "H" then "D" else if Ascii.eqb c "D" then "H"
   else c)%char.

(** [str(Seq(s).reverse_complement())] *)
Definition reverse_complement (s : str) : str := rev (map complement_char s).

(** [base in 'ATCG'] *)
Definition is_ATCG (base : ascii) : bool :=
  existsb (Ascii.eqb base) ["A"; "T"; "C"; "G"]%char.

(** The pattern [[ATCG]GG] matches at the head of [s]. *)
Definition match_NGG (s : str) : bool :=
  match s with
  | c1 :: c2 :: c3 :: _ => is_ATCG c1 && Ascii.eqb c2 "G" && Ascii.eqb c3 "G"
  | _ => false
  end.

(** [re.finditer(r'[ATCG]GG', s)]: left-to-right, non-overlapping
    matches; after a match at [i] the scan resumes at [i + 3].
    [i] is the index of the head of [s]; [skip] counts the characters
    still covered by the previous match. *)
Fixpoint finditer_NGG (s : str) (i : Z) (skip : nat) : list Z :=
  match s with
  | [] => []
  | _ :: tl =>
    match skip with
    | S k => finditer_NGG tl (i + 1) k
    | O => if match_NGG s then i :: finditer_NGG tl (i + 1) 2
           else finditer_NGG tl (i + 1) 0
    end
  end.

Definition find_pam_sites (sequence pam_type : str) : list Z :=
  let sequence := upper sequence in
  if str_eqb pam_type (lit "SpCas9") then finditer_NGG sequence 0 0 else [].

Definition extract_guide_sequence
    (sequence : str) (pam_position guide_length : Z) (strand : str) : option str :=
  let sequence := upper sequence in
  let window :=
    if str_eqb strand (lit "+") then
      let guide_start := pam_position - guide_length in
      let guide_end := pam_position in
      if guide_start <? 0 then None
      else Some (slice sequence guide_start guide_end)
    else
      let guide_start := pam_position + 3 in
      let guide_end := guide_start + guide_length in
      if len sequence <? guide_end then None
      else Some (reverse_complement (slice sequence guide_start guide_end))
  in
  match window with
  | None => None
  | Some guide_seq =>
    if negb (len guide_seq =? guide_length) then None
    else if negb (forallb is_ATCG guide_seq) then None
    else Some guide_seq
  end.

(** Truthiness of an optional string: [None] and [''] are false. *)
Definition truthy (o : option str) : bool :=
  match o with
  | Some (_ :: _) => true
  | _ => false
  end.

(** The tail of both loop bodies of [extract_guides]: GC content, gene
    name, filters, append. *)
Definition finish_guide
    (gene_name : option str) (apply_filters : bool)
    (guides : list Guide) (guide : Guide) : list Guide :=
  let guide := snd (calculate_gc_content guide) in
  let guide := if truthy gene_name then set_gene_name guide gene_name else guide in
  if apply_filters then
    if passes_quality_filters guide 40 60 4 then guides ++ [guide] else guides
  else guides ++ [guide].

(** Body of the plus-strand loop. *)
Definition plus_body
    (sequence chromosome : str) (start_position : Z) (gene_name : option str)
    (guide_length : Z) (apply_filters : bool)
    (guides : list Guide) (pam_pos : Z) : list Guide :=
  match extract_guide_sequence sequence pam_pos guide_length (lit "+") with
  | None => guides
  | Some guide_seq =>
    let pam_seq := slice sequence pam_pos (pam_pos + 3) in
    let guide_start := start_position + pam_pos - guide_length in
    let guide_end := start_position + pam_pos - 1 in
    let guide := new_guide guide_seq pam_seq chromosome guide_start guide_end (lit "+") in
    finish_guide gene_name apply_filters guides guide
  end.

(** Body of the minus-strand loop. *)
Definition minus_body
    (sequence rev_comp_seq chromosome : str) (start_position : Z)
    (gene_name : option str) (guide_length : Z) (apply_filters : bool)
    (guides : list Guide) (pam_pos : Z) : list Guide :=
  let original_pam_pos := len sequence - pam_pos - 3 in
  match extract_guide_sequence rev_comp_seq pam_pos guide_length (lit "+") with
  | None => guides
  | Some guide_seq =>
    let pam_seq := slice rev_comp_seq pam_pos (pam_pos + 3) in
    let guide_start := start_position + original_pam_pos + 4 in
    let guide_end := start_position + original_pam_pos + 3 + guide_length in
    let guide := new_guide guide_seq pam_seq chromosome guide_start guide_end (lit "-") in
    finish_guide gene_name apply_filters guides guide
  end.

Definition extract_guides
    (sequence chromosome : str) (start_position : Z) (gene_name : option str)
    (pam_type : str) (guide_length : Z) (apply_filters : bool) : list Guide :=
  let guides := [] in
  let sequence := upper sequence in
  let pam_positions := find_pam_sites sequence pam_type in
  let guides :=
    fold_left (plus_body sequence chromosome start_position gene_name
                         guide_length apply_filters) pam_positions guides in
  let rev_comp_seq := reverse_complement sequence in
  let pam_positions_rev := find_pam_sites rev_comp_seq pam_type in
  let guides :=
    fold_left (minus_body sequence rev_comp_seq chromosome start_position gene_name
                          guide_length apply_filters) pam_positions_rev guides in
  guides.

(** The call with the defaults [pam_type='SpCas9'], [guide_length=20],
    [gene_name=None], [apply_filters=True]. *)
Definition extract_guides_default (sequence chromosome : str) (start_position : Z) :=
  extract_guides sequence chromosome start_position None (lit "SpCas9") 20 true.

(** [filter_guides_by_quality]: the comprehension keeps, in order, the
    guides that pass the filters. *)
Definition filter_guides_by_quality
    (guides : list Guide) (min_gc max_gc : Q) (max_homopolymer : Z) : list Guide :=
  List.filter (fun guide => passes_quality_filters guide min_gc max_gc max_homopolymer)
              guides.

End Extract.

(* ===================================================================== *)
(** * predict.py *)
(* ===================================================================== *)

Module Predict.
Import Py GuideM.
Local Open Scope Q_scope.

Definition _score_gc_content (gc_content : Q) : Q :=
  let optimal_gc := 50 in
  let deviation := Qabs (gc_content - optimal_gc) in
  if Qle_bool deviation 10 then 10 - deviation
  else - (deviation - 10) * (1 # 2).

Definition _score_position_preferences (sequence : str) : result Q :=
  let score := 0 in
  let! score :=
    if (20 <=? len sequence)%Z then
      let! c18 := index sequence 18 in
      let score := if Ascii.eqb c18 "G" then score + 2 else score in
      let! c19 := index sequence 19 in
      let score := if Ascii.eqb c19 "G" then score + 2 else score in
      Ok score
    else Ok score in
  let! c0 := index sequence 0 in
  let score := if Ascii.eqb c0 "C" then score + 1 else score in
  Ok score.

Definition _score_seed_region (seed_sequence : str) : result Q :=
  let score := 0 in
  let gc_count := (count "G" seed_sequence + count "C" seed_sequence)%Z in
  let! gc_ratio := truediv gc_count (len seed_sequence) in
  let score :=
    if Qle_bool (4 # 10) gc_ratio && Qle_bool gc_ratio (6 # 10)
    then score + 3 else score - 2 in
  let score := if contains (lit "TTT") seed_sequence then score - 5 else score in
  Ok score.

Definition _score_pam_proximal (pam_proximal : str) : result Q :=
  let score := 0 in
  let gc_count := (count "G" pam_proximal + count "C" pam_proximal)%Z in
  let! gc_ratio := truediv gc_count (len pam_proximal) in
  let score := if Qle_bool (1 # 2) gc_ratio then score + 2 else score - 1 in
  Ok score.

(** One round of the loop of [_penalize_homopolymers]. *)
Definition penalty_body (sequence : str) (penalty : Q) (base : ascii) : Q :=
  let penalty := if contains (mul base 3) sequence then penalty - 2 else penalty in
  let penalty := if contains (mul base 4) sequence then penalty - 5 else penalty in
  let penalty := if contains (mul base 5) sequence then penalty - 10 else penalty in
  penalty.

Definition _penalize_homopolymers (sequence : str) : Q :=
  fold_left (penalty_body sequence) bases 0.

(** The running total of [predict_efficiency] before it is clamped and
    rounded. *)
Definition raw_score (guide : Guide) : result Q :=
  let score := 50 in
  let sequence := sequence guide in
  let gc_score := _score_gc_content (gc_content guide) in
  let score := score + gc_score in
  let! position_score := _score_position_preferences sequence in
  let score := score + position_score in
  let! seed_score := _score_seed_region (slice_to sequence 12) in
  let score := score + seed_score in
  let! pam_proximal_score := _score_pam_proximal (slice_from sequence (-8)) in
  let score := score + pam_proximal_score in
  let homopolymer_penalty := _penalize_homopolymers sequence in
  let score := score + homopolymer_penalty in
  let! c19 := index sequence 19 in
  let score := if Ascii.eqb c19 "G" then score + 2 else score in
  Ok score.

Definition predict_efficiency (guide : Guide) : result Q :=
  let! score := raw_score guide in
  let score := max 0 (min 100 score) in
  Ok (round1 score).

(** [predict_batch]: scores the guides in order; the first guide that
    raises aborts the loop. *)
Fixpoint predict_batch (guides : list Guide) : result (list Guide) :=
  match guides with
  | [] => Ok []
  | guide :: rest =>
    let! score := predict_efficiency guide in
    let! rest' := predict_batch rest in
    Ok (set_efficiency_score guide score :: rest')
  end.

Definition predict_efficiency_scores (guides : list Guide) : result (list Guide) :=
  predict_batch guides.

End Predict.

(* ===================================================================== *)
(** * offtarget.py *)
(* ===================================================================== *)

Module OffTarget.
Import Py GuideM.

(** The randomness source: [random.randint(a, b)] draws from a generator
    state and returns the next state. *)
Definition randint_t (RNG : Type) : Type := Z -> Z -> RNG -> Z * RNG.

(** Computations that draw random numbers and may raise. *)
Definition rand (RNG A : Type) : Type := RNG -> result (A * RNG).

(** The loop that collects the 4-mers of [sequence]. *)
Definition kmers_of (sequence : str) (k : Z) : gset str :=
  fold_left (fun (kmers : gset str) i => kmers ∪ {[ slice sequence i (i + k) ]})
            (range (len sequence - k + 1)) ∅.

Definition _calculate_complexity (sequence : str) : result Q :=
  let k := 4 in
  let kmers := kmers_of sequence k in
  let max_kmers := Z.min (4 ^ k) (len sequence - k + 1) in
  let! complexity := truediv (Z.of_nat (size kmers)) max_kmers in
  let gc_count := count "G" sequence + count "C" sequence in
  let! gc_ratio := truediv gc_count (len sequence) in
  let complexity :=
    if Qltb gc_ratio (3 # 10) || Qltb (7 # 10) gc_ratio
    then (complexity * (8 # 10))%Q else complexity in
  let complexity :=
    fold_left (fun (complexity : Q) base =>
                 if contains (mul base 4) sequence
                 then (complexity * (7 # 10))%Q else complexity)
              bases complexity in
  Ok complexity.

Section WithRandom.
Context {RNG : Type} (randint : randint_t RNG).

Definition _estimate_count (min_val max_val : Z) (st : RNG) : Z * RNG :=
  let mid := (inject_Z (min_val + max_val) / 2)%Q in
  let '(noise, st) := randint (-2) 2 st in
  (int (mid + inject_Z noise)%Q, st).

(** The three draws of one branch, in the order 1, 2, 3 mismatches. *)
Definition estimate3 (off_targets : gmap Z Z)
    (r1 r2 r3 : Z * Z) (st : RNG) : gmap Z Z * RNG :=
  let '(v, st) := _estimate_count (fst r1) (snd r1) st in
  let off_targets := <[1 := v]> off_targets in
  let '(v, st) := _estimate_count (fst r2) (snd r2) st in
  let off_targets := <[2 := v]> off_targets in
  let '(v, st) := _estimate_count (fst r3) (snd r3) st in
  let off_targets := <[3 := v]> off_targets in
  (off_targets, st).

(** The argument [max_mismatches] of the source is never read and is
    left out. *)
Definition search_off_targets (guide : Guide) : rand RNG (gmap Z Z) :=
  fun st =>
  let off_targets : gmap Z Z := <[0 := 1]> (<[1 := 0]> (<[2 := 0]> (<[3 := 0]> ∅))) in
  let sequence := sequence guide in
  let! complexity := _calculate_complexity sequence in
  if Qltb complexity (5 # 10) then
    Ok (estimate3 off_targets (5, 15) (20, 50) (80, 200) st)
  else if Qltb complexity (7 # 10) then
    Ok (estimate3 off_targets (1, 5) (5, 20) (20, 80) st)
  else
    Ok (estimate3 off_targets (0, 3) (2, 10) (10, 40) st).

End WithRandom.

(** A randomness source stubbed to the fixed value [c]; its state counts
    the draws made so far. *)
Definition stub_randint (c : Z) : randint_t nat := fun _ _ st => (c, S st).

(** The noises of three successive draws of [randint(-2, 2)] from [st]. *)
Definition draws3 {RNG : Type} (randint : randint_t RNG) (st : RNG) : Z * Z * Z :=
  let '(n1, st) := randint (-2) 2 st in
  let '(n2, st) := randint (-2) 2 st in
  let '(n3, st) := randint (-2) 2 st in
  (n1, n2, n3).

(** [m] maps 1, 2, 3 to the midpoints of the ranges [r1], [r2], [r3]
    shifted by the noises [n] and truncated toward zero by [int]. *)
Definition counts_from (m : gmap Z Z) (r1 r2 r3 : Z * Z) (n : Z * Z * Z) : Prop :=
  let '(n1, n2, n3) := n in
  m !! 1 = Some (int (inject_Z (fst r1 + snd r1) / 2 + inject_Z n1)%Q) /\
  m !! 2 = Some (int (inject_Z (fst r2 + snd r2) / 2 + inject_Z n2)%Q) /\
  m !! 3 = Some (int (inject_Z (fst r3 + snd r3) / 2 + inject_Z n3)%Q).

(** The mapping a call returns, forgetting the generator state. *)
Definition mapping_of {RNG : Type} (r : result (gmap Z Z * RNG)) : result (gmap Z Z) :=
  let! p := r in Ok (fst p).

(** [count_mismatches]: the length of [seq1] when the lengths differ,
    otherwise the number of positions that differ. *)
Definition count_mismatches (seq1 seq2 : str) : Z :=
  if negb (len seq1 =? len seq2) then len seq1
  else sum (map (fun p : ascii * ascii => if Ascii.eqb (fst p) (snd p) then 0 else 1)
                (combine seq1 seq2)).

(** [search_batch]: estimates the guides in order, threading the generator;
    the first guide that raises aborts the loop. *)
Fixpoint search_batch {RNG : Type} (randint : randint_t RNG)
    (guides : list Guide) (st : RNG) : result (list Guide * RNG) :=
  match guides with
  | [] => Ok ([], st)
  | guide :: rest =>
    let! r := search_off_targets randint guide st in
    let! r' := search_batch randint rest (snd r) in
    Ok (set_off_targets guide (fst r) :: fst r', snd r')
  end.

End OffTarget.

(* ===================================================================== *)
(** * rank.py *)
(* ===================================================================== *)

Module Rank.
Import Py GuideM.

(** [d.get(k, 0)] *)
Definition get0 (d : gmap Z Z) (k : Z) : Z := default 0 (d !! k).

Definition sort_key (guide : Guide) : Q * Z * Z :=
  let efficiency := (- efficiency_score guide)%Q in
  let critical_offtargets :=
    get0 (off_targets guide) 0 + get0 (off_targets guide) 1 + get0 (off_targets guide) 2 in
  let position := start guide in
  (efficiency, critical_offtargets, position).

(** [a < b] on the key tuples: the first component where the two differ
    decides. *)
Definition key_ltb (a b : Q * Z * Z) : bool :=
  let '(a1, a2, a3) := a in
  let '(b1, b2, b3) := b in
  if negb (Qeq_bool a1 b1) then Qltb a1 b1
  else if negb (a2 =? b2) then a2 <? b2
  else a3 <? b3.

(** [a == b] on the key tuples. *)
Definition key_eqb (a b : Q * Z * Z) : bool :=
  let '(a1, a2, a3) := a in
  let '(b1, b2, b3) := b in
  Qeq_bool a1 b1 && (a2 =? b2) && (a3 =? b3).

(** The lexicographic order on the key tuples, "ascending on the tuple". *)
Definition key_le (a b : Q * Z * Z) : Prop :=
  let '(a1, a2, a3) := a in
  let '(b1, b2, b3) := b in
  (a1 < b1)%Q \/ ((a1 == b1)%Q /\ (a2 < b2 \/ (a2 = b2 /\ a3 <= b3))).

(** Two elements are in ascending order of their keys. *)
Definition ascending {A : Type} (key : A -> Q * Z * Z) (x y : A) : Prop :=
  key_le (key x) (key y).

(** [sorted(xs, key=key)]: the stable sort. An element is put before the
    first element of the sorted rest whose key is not smaller than its
    own. *)
Section Sorted.
Context {A : Type} (key : A -> Q * Z * Z).

Fixpoint insert_by (x : A) (l : list A) : list A :=
  match l with
  | [] => [x]
  | y :: l' => if key_ltb (key y) (key x) then y :: insert_by x l' else x :: l
  end.

Fixpoint sorted (l : list A) : list A :=
  match l with
  | [] => []
  | x :: l' => insert_by x (sorted l')
  end.
End Sorted.

Definition rank_guides (guides : list Guide) : list Guide :=
  let sorted_guides := sorted sort_key guides in
  sorted_guides.

(** The table [penalties] of [calculate_specificity_score]. *)
Definition penalties : gmap Z Q :=
  <[0 := 100%Q]> (<[1 := 20%Q]> (<[2 := 5%Q]> (<[3 := 1%Q]> ∅))).

(** One round of the loop over [guide.off_targets.items()]. *)
Definition specificity_body (mismatch_count off_target_count : Z) (score : Q) : Q :=
  if mismatch_count =? 0 then
    if 1 <? off_target_count
    then (score - inject_Z (off_target_count - 1) * default 0 (penalties !! 0%Z))%Q
    else score
  else
    let penalty := (inject_Z off_target_count * default 0 (penalties !! mismatch_count))%Q in
    (score - penalty)%Q.

(** [calculate_specificity_score]. The loop runs over the entries of the
    dict; every step subtracts from the score, so the order of the entries
    does not change the value. *)
Definition calculate_specificity_score (guide : Guide) : Q :=
  let score := map_fold specificity_body 100%Q (off_targets guide) in
  max 0 (min 100 score).

(** [calculate_composite_score] with the default weights
    ([weights=None]). *)
Definition calculate_composite_score (guide : Guide) : Q :=
  let specificity := calculate_specificity_score guide in
  let composite :=
    (efficiency_score guide * (6 # 10) + specificity * (4 # 10))%Q in
  round2 composite.

(** [select_top_guides]: [guides[:top_n]]. *)
Definition select_top_guides (guides : list Guide) (top_n : Z) : list Guide :=
  slice_list guides 0 top_n.

(** Body of the loop of [filter_by_specificity]. *)
Definition specificity_filter_body (max_off_targets_1mm max_off_targets_2mm : Z)
    (filtered : list Guide) (guide : Guide) : list Guide :=
  if (get0 (off_targets guide) 1 <=? max_off_targets_1mm)
     && (get0 (off_targets guide) 2 <=? max_off_targets_2mm)
  then filtered ++ [guide] else filtered.

Definition filter_by_specificity
    (guides : list Guide) (max_off_targets_1mm max_off_targets_2mm : Z) : list Guide :=
  fold_left (specificity_filter_body max_off_targets_1mm max_off_targets_2mm) guides [].

End Rank.

(* ===================================================================== *)
(** * Facts about the Python primitives *)
(* ===================================================================== *)

Section PyFacts.
Import Py.

Lemma len_nonneg (s : str) : 0 <= len s.
Proof. unfold len. lia. Qed.

Lemma len_app (s t : str) : len (s ++ t) = len s + len t.
Proof. unfold len. rewrite List.length_app. lia. Qed.

Lemma upper_len (s : str) : len (upper s) = len s.
Proof. unfold len, upper. now rewrite List.length_map. Qed.

Lemma upper_char_idem (c : ascii) : upper_char (upper_char c) = upper_char c.
Proof.
  destruct c as [[] [] [] [] [] [] [] []]; vm_compute; reflexivity.
Qed.

Lemma upper_idem (s : str) : upper (upper s) = upper s.
Proof.
  unfold upper. rewrite List.map_map.
  apply List.map_ext. intros c. apply upper_char_idem.
Qed.

Lemma str_eqb_refl (s : str) : str_eqb s s = true.
Proof.
  induction s as [|c s IH]; simpl; [reflexivity|].
  now rewrite Ascii.eqb_refl, IH.
Qed.

(** [startswith] and [contains] decide "prefix" and "substring". *)
Lemma startswith_spec (s t : str) :
  startswith s t = true <-> exists post, s = t ++ post.
Proof.
  revert s. induction t as [|d t IH]; intros s; simpl.
  - split; [intros _; now exists s | reflexivity].
  - destruct s as [|c s].
    + split; [discriminate | intros [post H]; discriminate].
    + rewrite andb_true_iff, Ascii.eqb_eq, IH. split.
      * intros [-> [post ->]]. now exists post.
      * intros [post H]. injection H as -> ->. split; [reflexivity | now exists post].
Qed.

Lemma contains_spec (t s : str) :
  contains t s = true <-> exists pre post, s = pre ++ t ++ post.
Proof.
  induction s as [|c s IH]; simpl.
  - rewrite orb_false_r, startswith_spec. split.
    + intros [post H]. now exists [], post.
    + intros [pre [post H]]. destruct pre; simpl in H.
      * now exists post.
      * discriminate.
  - rewrite orb_true_iff, startswith_spec, IH. split.
    + intros [[post H] | [pre [post H]]].
      * now exists [], post.
      * exists (c :: pre), post. simpl. now rewrite H.
    + intros [pre [post H]]. destruct pre as [|c' pre]; simpl in H.
      * left. now exists post.
      * right. injection H as -> ->. now exists pre, post.
Qed.

(** A longer run of one character contains every shorter one. *)
Lemma repeat_split (c : ascii) (n m : nat) :
  (n <= m)%nat -> repeat c m = repeat c n ++ repeat c (m - n).
Proof.
  intros H. rewrite <- repeat_app. f_equal. lia.
Qed.

(** Slices between in-range bounds. *)
Lemma slice_in_range (s : str) (a b : Z) :
  0 <= a -> a <= b -> b <= len s ->
  slice s a b = firstn (Z.to_nat (b - a)) (skipn (Z.to_nat a) s).
Proof.
  intros Ha Hab Hb. unfold slice, norm_bound.
  destruct (Z.ltb_spec a 0); [lia|].
  destruct (Z.ltb_spec b 0); [lia|].
  now rewrite !Z.min_l by lia.
Qed.

Lemma slice_len (s : str) (a b : Z) :
  0 <= a -> a <= b -> b <= len s -> len (slice s a b) = b - a.
Proof.
  intros Ha Hab Hb. rewrite slice_in_range by assumption.
  unfold len in *. rewrite List.length_firstn, List.length_skipn. lia.
Qed.

Lemma slice_to_len (s : str) (n : Z) :
  0 <= n -> n <= len s -> len (slice_to s n) = n.
Proof.
  intros H0 Hn. unfold slice_to. rewrite slice_len; lia.
Qed.

Lemma slice_from_neg_len (s : str) (n : Z) :
  0 < n -> n <= len s -> len (slice_from s (- n)) = n.
Proof.
  intros H0 Hn. unfold slice_from, slice, norm_bound.
  destruct (Z.ltb_spec (- n) 0); [|lia].
  destruct (Z.ltb_spec (len s) 0); [pose proof (len_nonneg s); lia|].
  rewrite Z.max_r, Z.min_l by lia.
  unfold len in *. rewrite List.length_firstn, List.length_skipn. lia.
Qed.

Lemma index_in_range (s : str) (i : Z) :
  0 <= i -> i < len s -> exists c, index s i = Ok c.
Proof.
  intros H0 Hi. unfold index.
  assert (E0 : (i <? 0) = false) by (apply Z.ltb_ge; lia).
  assert (E1 : (len s <=? i) = false) by (apply Z.leb_gt; lia).
  rewrite E0. cbv zeta. rewrite E0, E1. cbn [orb].
  destruct (nth_error s (Z.to_nat i)) as [c|] eqn:E; [now exists c|].
  apply nth_error_None in E. unfold len in *. lia.
Qed.

Lemma truediv_ok (a b : Z) : b <> 0 -> truediv a b = Ok (inject_Z a / inject_Z b)%Q.
Proof.
  intros Hb. unfold truediv. destruct (Z.eqb_spec b 0); [contradiction | reflexivity].
Qed.

Lemma Qltb_lt (x y : Q) : Qltb x y = true <-> (x < y)%Q.
Proof.
  unfold Qltb. rewrite Qlt_alt. destruct (x ?= y)%Q; split; congruence.
Qed.

Lemma Qltb_ge (x y : Q) : Qltb x y = false <-> (y <= x)%Q.
Proof.
  split; intros H.
  - apply Qnot_lt_le. intros Hlt. apply Qltb_lt in Hlt. congruence.
  - destruct (Qltb x y) eqn:E; [|reflexivity].
    apply Qltb_lt in E. exfalso. now apply (Qlt_not_le x y).
Qed.

End PyFacts.

(* ===================================================================== *)
(** * The motif scanner *)
(* ===================================================================== *)

Section ExtractFacts.
Import Py GuideM Extract.

Lemma reverse_complement_len (s : str) : len (reverse_complement s) = len s.
Proof.
  unfold reverse_complement, len. now rewrite List.length_rev, List.length_map.
Qed.

Lemma complement_upper_char (c : ascii) :
  upper_char (complement_char (upper_char c)) = complement_char (upper_char c).
Proof.
  destruct c as [[] [] [] [] [] [] [] []]; vm_compute; reflexivity.
Qed.

(** The reverse complement of upper-case text is upper-case. *)
Lemma upper_reverse_complement (s : str) :
  upper (reverse_complement (upper s)) = reverse_complement (upper s).
Proof.
  unfold reverse_complement, upper.
  rewrite <- !List.map_rev, !List.map_map.
  apply List.map_ext. intros c. apply complement_upper_char.
Qed.

Lemma match_NGG_inv (s : str) :
  match_NGG s = true ->
  exists c post, s = c :: "G"%char :: "G"%char :: post /\ is_ATCG c = true.
Proof.
  destruct s as [|c1 [|c2 [|c3 post]]]; simpl; try discriminate.
  rewrite !andb_true_iff, !Ascii.eqb_eq. intros [[H1 ->] ->].
  now exists c1, post.
Qed.

(** Every hit of the scan lies in the text, with its three symbols. *)
Lemma finditer_NGG_bounds (s : str) :
  forall i skip p, In p (finditer_NGG s i skip) -> i <= p /\ p + 3 <= i + len s.
Proof.
  induction s as [|c tl IH]; intros i skip p Hp; cbn [finditer_NGG] in Hp;
    [contradiction|].
  assert (Htl : len (c :: tl) = 1 + len tl) by (unfold len; simpl length; lia).
  destruct skip as [|k].
  - destruct (match_NGG (c :: tl)) eqn:M.
    + simpl in Hp. destruct Hp as [<- | Hp].
      * apply match_NGG_inv in M. destruct M as [c' [post [E _]]].
        rewrite E. unfold len. simpl length. lia.
      * apply IH in Hp. lia.
    + apply IH in Hp. lia.
  - apply IH in Hp. lia.
Qed.

Lemma find_pam_sites_bounds (s pam_type : str) (p : Z) :
  In p (find_pam_sites s pam_type) -> 0 <= p /\ p + 3 <= len s.
Proof.
  unfold find_pam_sites. destruct (str_eqb pam_type (lit "SpCas9")); [|contradiction].
  intros Hp. apply finditer_NGG_bounds in Hp. rewrite upper_len in Hp. lia.
Qed.


(** Loops that only append: what ends up in the list. *)
Lemma fold_left_In_inv {A B : Type} (body : list A -> B -> list A) (P : B -> A -> Prop) :
  (forall acc x g, In g (body acc x) -> In g acc \/ P x g) ->
  forall xs acc g, In g (fold_left body xs acc) ->
                   In g acc \/ exists x, In x xs /\ P x g.
Proof.
  intros Hbody xs. induction xs as [|x xs IH]; intros acc g Hg; simpl in Hg.
  - now left.
  - apply IH in Hg. destruct Hg as [Hg | [y [Hy HP]]].
    + apply Hbody in Hg. destruct Hg as [Hg | HP]; [now left|].
      right. exists x. split; [now left | assumption].
    + right. exists y. split; [now right | assumption].
Qed.


(** The tail of the loop bodies changes neither the window nor the
    coordinates of the guide it appends. *)
Lemma finish_guide_inv gene_name apply_filters guides guide g :
  In g (finish_guide gene_name apply_filters guides guide) ->
  In g guides \/
  (sequence g = sequence guide /\ pam g = pam guide /\
   chromosome g = chromosome guide /\ start g = start guide /\
   end_ g = end_ guide /\ strand g = strand guide).
Proof.
  unfold finish_guide.
  set (g1 := snd (calculate_gc_content guide)).
  set (g2 := if truthy gene_name then set_gene_name g1 gene_name else g1).
  assert (E : sequence g2 = sequence guide /\ pam g2 = pam guide /\
              chromosome g2 = chromosome guide /\ start g2 = start guide /\
              end_ g2 = end_ guide /\ strand g2 = strand guide).
  { subst g2 g1. unfold calculate_gc_content.
    destruct (truthy gene_name), (sequence guide) eqn:Es; simpl; rewrite ?Es; tauto. }
  intros Hg.
  assert (In g guides \/ g = g2) as [H | ->]; [|now left|now right].
  destruct apply_filters; [destruct (passes_quality_filters g2 40 60 4)|];
    try (apply in_app_or in Hg; destruct Hg as [Hg | [<- | []]]); auto.
Qed.

(** When the plus-strand window is extracted, enough flank precedes the
    hit. *)
Lemma extract_guide_sequence_plus_inv sequence p guide_length w :
  extract_guide_sequence sequence p guide_length (lit "+") = Some w ->
  0 <= p - guide_length /\
  w = slice (upper sequence) (p - guide_length) p /\
  len w = guide_length /\ forallb is_ATCG w = true.
Proof.
  unfold extract_guide_sequence. rewrite str_eqb_refl.
  destruct (Z.ltb_spec (p - guide_length) 0) as [|Hge]; [discriminate|].
  destruct (Z.eqb_spec (len (slice (upper sequence) (p - guide_length) p)) guide_length)
    as [El|]; simpl; [|discriminate].
  destruct (forallb is_ATCG (slice (upper sequence) (p - guide_length) p)) eqn:Ef;
    simpl; [|discriminate].
  intros [= <-]. auto.
Qed.


Lemma plus_body_inv sequence chromosome start_position gene_name guide_length
      apply_filters guides p g :
  In g (plus_body sequence chromosome start_position gene_name guide_length
                  apply_filters guides p) ->
  In g guides \/
  (extract_guide_sequence sequence p guide_length (lit "+") = Some (GuideM.sequence g) /\
   pam g = slice sequence p (p + 3) /\
   start g = start_position + p - guide_length /\
   end_ g = start_position + p - 1 /\
   strand g = lit "+").
Proof.
  unfold plus_body.
  destruct (extract_guide_sequence sequence p guide_length (lit "+")) as [w|];
    [|now left].
  intros Hg. apply finish_guide_inv in Hg. simpl in Hg.
  destruct Hg as [Hg | (-> & -> & _ & -> & -> & ->)]; [now left | right]. auto.
Qed.

Lemma minus_body_inv sequence rev_comp_seq chromosome start_position gene_name
      guide_length apply_filters guides p g :
  In g (minus_body sequence rev_comp_seq chromosome start_position gene_name
                   guide_length apply_filters guides p) ->
  In g guides \/
  (extract_guide_sequence rev_comp_seq p guide_length (lit "+") = Some (GuideM.sequence g) /\
   pam g = slice rev_comp_seq p (p + 3) /\
   start g = start_position + (len sequence - p - 3) + 4 /\
   end_ g = start_position + (len sequence - p - 3) + 3 + guide_length /\
   strand g = lit "-").
Proof.
  unfold minus_body.
  destruct (extract_guide_sequence rev_comp_seq p guide_length (lit "+")) as [w|];
    [|now left].
  intros Hg. apply finish_guide_inv in Hg. simpl in Hg.
  destruct Hg as [Hg | (-> & -> & _ & -> & -> & ->)]; [now left | right]. auto.
Qed.

(** Every emitted guide comes from a forward hit or from a hit on the
    reverse complement. *)
Lemma extract_guides_inv sequence chromosome start_position gene_name pam_type
      guide_length apply_filters g :
  In g (extract_guides sequence chromosome start_position gene_name pam_type
                       guide_length apply_filters) ->
  (exists p, In p (find_pam_sites (upper sequence) pam_type) /\
     extract_guide_sequence (upper sequence) p guide_length (lit "+")
       = Some (GuideM.sequence g) /\
     pam g = slice (upper sequence) p (p + 3) /\
     start g = start_position + p - guide_length /\
     end_ g = start_position + p - 1 /\
     strand g = lit "+") \/
  (exists rc_i, In rc_i (find_pam_sites (reverse_complement (upper sequence)) pam_type) /\
     extract_guide_sequence (reverse_complement (upper sequence)) rc_i guide_length (lit "+")
       = Some (GuideM.sequence g) /\
     pam g = slice (reverse_complement (upper sequence)) rc_i (rc_i + 3) /\
     start g = start_position + (len sequence - rc_i - 3) + 4 /\
     end_ g = start_position + (len sequence - rc_i - 3) + 3 + guide_length /\
     strand g = lit "-").
Proof.
  unfold extract_guides. intros Hg.
  apply (fold_left_In_inv _ _ (minus_body_inv _ _ _ _ _ _ _)) in Hg.
  destruct Hg as [Hg | [p [Hp HP]]].
  - apply (fold_left_In_inv _ _ (plus_body_inv _ _ _ _ _ _)) in Hg.
    destruct Hg as [[] | [p [Hp HP]]]. left. now exists p.
  - right. exists p. rewrite upper_len in HP. now split.
Qed.

End ExtractFacts.

Section ExtractClaims.
Import Py GuideM Extract.

(** C1. Every minus-strand guide that [extract_guides] emits comes from a
    PAM hit at some index [rc_i] of the reverse complement, and with
    [orig_i = len(sequence) - rc_i - 3] it has
    [start = start_position + orig_i + 4],
    [end = start_position + orig_i + 3 + guide_length], strand ['-'] and as
    [pam] the three symbols of the reverse complement starting at [rc_i]. *)
Theorem minus_strand_mapping
    (sequence chromosome : str) (start_position : Z) (gene_name : option str)
    (pam_type : str) (guide_length : Z) (apply_filters : bool) (g : Guide) :
  In g (extract_guides sequence chromosome start_position gene_name pam_type
                       guide_length apply_filters) ->
  strand g = lit "-" ->
  exists rc_i,
    In rc_i (find_pam_sites (reverse_complement (upper sequence)) pam_type) /\
    let orig_i := len sequence - rc_i - 3 in
    start g = start_position + orig_i + 4 /\
    end_ g = start_position + orig_i + 3 + guide_length /\
    strand g = lit "-" /\
    pam g = slice (reverse_complement (upper sequence)) rc_i (rc_i + 3) /\
    len (pam g) = 3.
Proof.
  intros Hg Hs. apply extract_guides_inv in Hg.
  destruct Hg as [[p (_ & _ & _ & _ & _ & Hplus)] | [rc_i (Hin & _ & Hpam & Hst & Hen & _)]].
  - rewrite Hs in Hplus. discriminate.
  - exists rc_i. split; [assumption|]. cbv zeta.
    repeat split; try assumption.
    apply find_pam_sites_bounds in Hin. rewrite Hpam.
    rewrite slice_len; lia.
Qed.

(** A sequence whose only guide lies on the minus strand: the reverse
    complement of [A*20 + TGG + C*10]. *)
Lemma minus_strand_mapping_witness :
  exists rc_i,
    In rc_i (find_pam_sites
               (reverse_complement (upper (lit "GGGGGGGGGGCCATTTTTTTTTTTTTTTTTTTT")))
               (lit "SpCas9")) /\
    let orig_i := len (lit "GGGGGGGGGGCCATTTTTTTTTTTTTTTTTTTT") - rc_i - 3 in
    15 = 1 + orig_i + 4 /\
    34 = 1 + orig_i + 3 + 20 /\
    lit "-" = lit "-" /\
    lit "TGG" = slice (reverse_complement (upper (lit "GGGGGGGGGGCCATTTTTTTTTTTTTTTTTTTT")))
                      rc_i (rc_i + 3) /\
    len (lit "TGG") = 3.
Proof.
  apply (minus_strand_mapping
           (lit "GGGGGGGGGGCCATTTTTTTTTTTTTTTTTTTT") (lit "chr1") 1 None (lit "SpCas9") 20 false
           (set_gc_content
              (new_guide (lit "AAAAAAAAAAAAAAAAAAAA") (lit "TGG") (lit "chr1") 15 34 (lit "-"))
              ((inject_Z 0 / inject_Z 20) * 100)%Q)).
  - vm_compute. left. reflexivity.
  - reflexivity.
Defined.

(** C4 as stated fails: with the default filters the only candidate of
    scenario A, [A*20], has GC content 0 and is dropped. *)
Lemma scenario_A_default_filters_empty :
  extract_guides_default (lit "AAAAAAAAAAAAAAAAAAAATGGCCCCCCCCCC") (lit "chr1") 1 = [] /\
  ~ (exists g,
       extract_guides_default (lit "AAAAAAAAAAAAAAAAAAAATGGCCCCCCCCCC") (lit "chr1") 1 = [g] /\
       strand g = lit "+" /\ sequence g = lit "AAAAAAAAAAAAAAAAAAAA" /\
       pam g = lit "TGG" /\ start g = 1 /\ end_ g = 20).
Proof.
  assert (E : extract_guides_default (lit "AAAAAAAAAAAAAAAAAAAATGGCCCCCCCCCC") (lit "chr1") 1 = [])
    by (vm_compute; reflexivity).
  split; [exact E|]. intros [g [H _]]. rewrite E in H. discriminate.
Qed.

(** C4, amended. With the quality filters switched off, [extract_guides]
    on [A*20 + TGG + C*10] with [start_position = 1] and chromosome
    [chr1] yields exactly one guide: plus strand, sequence [A*20], pam
    [TGG], start 1, end 20; there is no minus-strand guide. With the
    default filters the candidate has GC content 0 and nothing is
    returned. *)
Theorem scenario_A_unfiltered :
  (exists g,
     extract_guides (lit "AAAAAAAAAAAAAAAAAAAATGGCCCCCCCCCC") (lit "chr1") 1 None
                    (lit "SpCas9") 20 false = [g] /\
     strand g = lit "+" /\ sequence g = lit "AAAAAAAAAAAAAAAAAAAA" /\
     pam g = lit "TGG" /\ start g = 1 /\ end_ g = 20 /\
     chromosome g = lit "chr1" /\ (gc_content g == 0)%Q /\
     passes_quality_filters g 40 60 4 = false) /\
  extract_guides (lit "AAAAAAAAAAAAAAAAAAAATGGCCCCCCCCCC") (lit "chr1") 1 None
                 (lit "SpCas9") 20 true = [].
Proof.
  split.
  - eexists. split; [vm_compute; reflexivity|].
    repeat split; vm_compute; congruence.
  - vm_compute. reflexivity.
Qed.



(** C9. For every guide that [extract_guides] emits, on either strand and
    for any guide length, [end - start + 1 = guide_length]; and
    [start >= 1] whenever [start_position >= 1]. *)
Theorem guide_interval_span
    (sequence chromosome : str) (start_position : Z) (gene_name : option str)
    (pam_type : str) (guide_length : Z) (apply_filters : bool) (g : Guide) :
  In g (extract_guides sequence chromosome start_position gene_name pam_type
                       guide_length apply_filters) ->
  end_ g - start g + 1 = guide_length /\
  (1 <= start_position -> 1 <= start g).
Proof.
  intros Hg. apply extract_guides_inv in Hg.
  destruct Hg as [[p (Hin & Hw & _ & Hst & Hen & _)] | [p (Hin & _ & _ & Hst & Hen & _)]].
  - apply extract_guide_sequence_plus_inv in Hw. lia.
  - apply find_pam_sites_bounds in Hin.
    rewrite reverse_complement_len, upper_len in Hin. lia.
Qed.

Lemma guide_interval_span_witness :
  20 - 1 + 1 = 20 /\ (1 <= 1 -> 1 <= 1).
Proof.
  apply (guide_interval_span
           (lit "AAAAAAAAAAAAAAAAAAAATGGCCCCCCCCCC") (lit "chr1") 1 None (lit "SpCas9") 20 false
           (set_gc_content
              (new_guide (lit "AAAAAAAAAAAAAAAAAAAA") (lit "TGG") (lit "chr1") 1 20 (lit "+"))
              ((inject_Z 0 / inject_Z 20) * 100)%Q)).
  vm_compute. left. reflexivity.
Defined.

End ExtractClaims.

(* ===================================================================== *)
(** * The quality filters *)
(* ===================================================================== *)

Section FilterClaims.
Import Py GuideM.

(** [base * n in s] holds exactly when [s] has a run of [base] of length
    at least [n]. *)
Lemma contains_mul_run (base : ascii) (n : Z) (s : str) :
  contains (mul base n) s = true <->
  exists (m : nat) pre post, n <= Z.of_nat m /\ s = pre ++ repeat base m ++ post.
Proof.
  unfold mul. rewrite contains_spec. split.
  - intros [pre [post E]]. exists (Z.to_nat n), pre, post. split; [lia | exact E].
  - intros (m & pre & post & Hm & E).
    exists pre, (repeat base (m - Z.to_nat n) ++ post).
    rewrite E, (repeat_split base (Z.to_nat n) m) by lia.
    now rewrite <- List.app_assoc.
Qed.

(** C5. [passes_quality_filters] returns [False] exactly when the GC
    content lies outside [[min_gc, max_gc]], or one of the bases A, T, G, C
    has a run of length at least [max_homopolymer] in the sequence, or
    [TTTT] occurs in the sequence. *)
Theorem passes_quality_filters_false_iff
    (g : Guide) (min_gc max_gc : Q) (max_homopolymer : Z) :
  passes_quality_filters g min_gc max_gc max_homopolymer = false <->
  ((gc_content g < min_gc)%Q \/ (max_gc < gc_content g)%Q) \/
  (exists base, In base ["A"; "T"; "G"; "C"]%char /\
     exists (m : nat) pre post,
       max_homopolymer <= Z.of_nat m /\ sequence g = pre ++ repeat base m ++ post) \/
  (exists pre post, sequence g = pre ++ lit "TTTT" ++ post).
Proof.
  unfold passes_quality_filters.
  destruct (Qltb (gc_content g) min_gc) eqn:E1; cbn [orb].
  { apply Qltb_lt in E1. tauto. }
  destruct (Qltb max_gc (gc_content g)) eqn:E2.
  { apply Qltb_lt in E2. tauto. }
  apply Qltb_ge in E1, E2.
  destruct (existsb (fun base => contains (mul base max_homopolymer) (sequence g)) bases)
    eqn:E3.
  { apply existsb_exists in E3. destruct E3 as [base [Hb Hc]].
    apply contains_mul_run in Hc.
    split; [intros _ | reflexivity]. right. left. exists base. split; assumption. }
  destruct (contains (lit "TTTT") (sequence g)) eqn:E4.
  { apply contains_spec in E4. tauto. }
  split; [discriminate|].
  intros [[H | H] | [[base [Hb Hrun]] | H]]; exfalso.
  - now apply (Qlt_not_le _ _ H).
  - now apply (Qlt_not_le _ _ H).
  - apply contains_mul_run in Hrun.
    assert (Hex : existsb (fun base => contains (mul base max_homopolymer) (sequence g)) bases
                  = true)
      by (apply existsb_exists; exists base; split; assumption).
    congruence.
  - apply contains_spec in H. congruence.
Qed.

End FilterClaims.

(* ===================================================================== *)
(** * The efficiency estimator *)
(* ===================================================================== *)

Section PredictFacts.
Import Py GuideM Predict.

Lemma score_position_ok (s : str) :
  0 < len s ->
  exists q, _score_position_preferences s = Ok q.
Proof.
  intros Hlen. unfold _score_position_preferences.
  destruct (index_in_range s 0) as [c0 E0]; [lia | lia |].
  destruct (Z.leb_spec 20 (len s)) as [H20|_].
  - destruct (index_in_range s 18) as [c18 E18]; [lia | lia |].
    destruct (index_in_range s 19) as [c19 E19]; [lia | lia |].
    rewrite E18, E19. cbn [bind]. rewrite E0. cbn [bind]. eauto.
  - cbn [bind]. rewrite E0. cbn [bind]. eauto.
Qed.

Lemma score_seed_ok (s : str) :
  len s <> 0 -> exists q, _score_seed_region s = Ok q.
Proof.
  intros Hlen. unfold _score_seed_region.
  rewrite truediv_ok by assumption. cbn [bind]. eauto.
Qed.

Lemma score_pam_proximal_ok (s : str) :
  len s <> 0 -> exists q, _score_pam_proximal s = Ok q.
Proof.
  intros Hlen. unfold _score_pam_proximal.
  rewrite truediv_ok by assumption. cbn [bind]. eauto.
Qed.

Lemma raw_score_ok (g : Guide) :
  len (sequence g) = 20 -> exists q, raw_score g = Ok q.
Proof.
  intros Hlen. unfold raw_score.
  destruct (score_position_ok (sequence g)) as [q1 E1]; [lia|].
  destruct (score_seed_ok (slice_to (sequence g) 12)) as [q2 E2];
    [rewrite slice_to_len; lia|].
  destruct (score_pam_proximal_ok (slice_from (sequence g) (-8))) as [q3 E3];
    [rewrite (slice_from_neg_len _ 8); lia|].
  destruct (index_in_range (sequence g) 19) as [c19 E19]; [lia | lia |].
  rewrite E1. cbn [bind]. rewrite E2. cbn [bind]. rewrite E3. cbn [bind].
  rewrite E19. cbn [bind]. eauto.
Qed.

(** C10. On a guide whose sequence has exactly 20 symbols over
    {A, C, G, T}, [predict_efficiency] returns a score: the index accesses
    at 0, 18 and 19 are in bounds, the seed has 12 symbols and the
    PAM-proximal window 8, so neither IndexError nor ZeroDivisionError is
    raised. *)
Theorem predict_efficiency_total (g : Guide) :
  len (sequence g) = 20 ->
  Forall (fun c => In c ["A"; "C"; "G"; "T"]%char) (sequence g) ->
  (exists c0 c18 c19,
     index (sequence g) 0 = Ok c0 /\ index (sequence g) 18 = Ok c18 /\
     index (sequence g) 19 = Ok c19) /\
  len (slice_to (sequence g) 12) = 12 /\
  len (slice_from (sequence g) (-8)) = 8 /\
  exists score, predict_efficiency g = Ok score.
Proof.
  intros Hlen _. repeat split.
  - destruct (index_in_range (sequence g) 0) as [c0 E0]; [lia | lia |].
    destruct (index_in_range (sequence g) 18) as [c18 E18]; [lia | lia |].
    destruct (index_in_range (sequence g) 19) as [c19 E19]; [lia | lia |].
    now exists c0, c18, c19.
  - rewrite slice_to_len; lia.
  - rewrite (slice_from_neg_len _ 8); lia.
  - destruct (raw_score_ok g Hlen) as [q E].
    unfold predict_efficiency. rewrite E. cbn [bind]. eauto.
Qed.

Lemma predict_efficiency_total_witness :
  exists score,
    predict_efficiency
      (new_guide (lit "GGAAGACTCCAGTGGTAATC") (lit "TGG") (lit "chr17") 100 119 (lit "+"))
    = Ok score.
Proof.
  apply (predict_efficiency_total
           (new_guide (lit "GGAAGACTCCAGTGGTAATC") (lit "TGG") (lit "chr17") 100 119 (lit "+"))).
  - reflexivity.
  - vm_compute. repeat (apply List.Forall_cons; [auto 10|]). apply List.Forall_nil.
Defined.

End PredictFacts.

Section RoundingFacts.
Import Py.
Local Open Scope Q_scope.








End RoundingFacts.

Section TerminalG.
Import Py GuideM Predict.
Local Open Scope Q_scope.

Lemma index_app_l (p t : str) (i : Z) :
  (0 <= i)%Z -> (i < len p)%Z -> index (p ++ t) i = index p i.
Proof.
  intros H0 Hi. unfold index.
  assert (E0 : (i <? 0)%Z = false) by (apply Z.ltb_ge; lia).
  assert (E1 : (len p <=? i)%Z = false) by (apply Z.leb_gt; lia).
  assert (E2 : (len (p ++ t) <=? i)%Z = false).
  { apply Z.leb_gt. rewrite len_app. pose proof (len_nonneg t). lia. }
  rewrite E0. cbv zeta. rewrite E0, E1, E2. cbn [orb].
  rewrite nth_error_app1; [reflexivity|]. unfold len in Hi. lia.
Qed.

Lemma index_app_last (p : str) (x : ascii) :
  index (p ++ [x]) (len p) = Ok x.
Proof.
  unfold index. pose proof (len_nonneg p) as Hp.
  assert (E0 : (len p <? 0)%Z = false) by (apply Z.ltb_ge; lia).
  assert (E2 : (len (p ++ [x]) <=? len p)%Z = false).
  { apply Z.leb_gt. rewrite len_app. unfold len at 3. simpl length. lia. }
  rewrite E0. cbv zeta. rewrite E0, E2. cbn [orb].
  rewrite nth_error_app2 by (unfold len; lia).
  unfold len. replace (Z.to_nat (Z.of_nat (length p)) - length p)%nat with 0%nat by lia.
  reflexivity.
Qed.

Lemma slice_to_app_l (p t : str) (n : Z) :
  (0 <= n)%Z -> (n <= len p)%Z -> slice_to (p ++ t) n = slice_to p n.
Proof.
  intros H0 Hn. unfold slice_to.
  rewrite !slice_in_range; try lia.
  - change (Z.to_nat 0) with 0%nat. rewrite !List.skipn_O, List.firstn_app.
    replace (Z.to_nat (n - 0) - length p)%nat with 0%nat by (unfold len in Hn; lia).
    simpl firstn. now rewrite List.app_nil_r.
  - rewrite len_app. pose proof (len_nonneg t). lia.
Qed.

(** Bounds of the terms of the additive model. *)
Lemma score_gc_content_le (gc : Q) : _score_gc_content gc <= 10.
Proof.
  unfold _score_gc_content. pose proof (Qabs_nonneg (gc - 50)) as Habs.
  destruct (Qle_bool (Qabs (gc - 50)) 10) eqn:E.
  - lra.
  - assert (H : ~ Qabs (gc - 50) <= 10)
      by (intros H; apply Qle_bool_iff in H; congruence).
    apply Qnot_le_lt in H. lra.
Qed.

Lemma score_seed_le (s : str) (q : Q) : _score_seed_region s = Ok q -> q <= 3.
Proof.
  unfold _score_seed_region.
  destruct (truediv (count "G" s + count "C" s) (len s)) as [r|]; cbn [bind];
    [|discriminate].
  cbv zeta. intros [= <-].
  destruct (Qle_bool (4 # 10) r && Qle_bool r (6 # 10))%bool,
           (contains _ s); lra.
Qed.

Lemma score_pam_proximal_le (s : str) (q : Q) : _score_pam_proximal s = Ok q -> q <= 2.
Proof.
  unfold _score_pam_proximal.
  destruct (truediv (count "G" s + count "C" s) (len s)) as [r|]; cbn [bind];
    [|discriminate].
  cbv zeta. intros [= <-]. destruct (Qle_bool (1 # 2) r); lra.
Qed.

Lemma penalty_body_le (s : str) (q : Q) (base : ascii) : penalty_body s q base <= q.
Proof.
  unfold penalty_body.
  destruct (contains (mul base 3) s), (contains (mul base 4) s),
           (contains (mul base 5) s); lra.
Qed.

Lemma penalize_homopolymers_le (s : str) : _penalize_homopolymers s <= 0.
Proof.
  unfold _penalize_homopolymers, bases. cbn [fold_left].
  repeat (eapply Qle_trans; [apply penalty_body_le|]). lra.
Qed.

(** The running total of a 20-symbol sequence, written as [p] followed by
    its last symbol [x]. *)
Lemma raw_score_last (g : Guide) (p : str) (x : ascii) :
  length p = 19%nat -> sequence g = p ++ [x] ->
  exists c0 c18 seedq pamq r,
    index p 0 = Ok c0 /\ index p 18 = Ok c18 /\
    _score_seed_region (slice_to p 12) = Ok seedq /\
    _score_pam_proximal (slice_from (p ++ [x]) (-8)) = Ok pamq /\
    raw_score g = Ok r /\
    r == 50 + _score_gc_content (gc_content g)
         + ((if Ascii.eqb c18 "G" then 2 else 0) + (if Ascii.eqb x "G" then 2 else 0)
            + (if Ascii.eqb c0 "C" then 1 else 0))
         + seedq + pamq + _penalize_homopolymers (p ++ [x])
         + (if Ascii.eqb x "G" then 2 else 0).
Proof.
  intros Hp Hs.
  assert (Hlp : len p = 19%Z) by (unfold len; lia).
  assert (Hl : len (p ++ [x]) = 20%Z) by (rewrite len_app, Hlp; reflexivity).
  destruct (index_in_range p 0) as [c0 E0]; [lia | lia |].
  destruct (index_in_range p 18) as [c18 E18]; [lia | lia |].
  destruct (score_seed_ok (slice_to p 12)) as [seedq Eseed];
    [rewrite slice_to_len; lia|].
  destruct (score_pam_proximal_ok (slice_from (p ++ [x]) (-8))) as [pamq Epam];
    [rewrite (slice_from_neg_len _ 8); lia|].
  assert (E19 : index (p ++ [x]) 19 = Ok x) by (rewrite <- Hlp; apply index_app_last).
  exists c0, c18, seedq, pamq. eexists.
  do 4 (split; [eassumption|]).
  unfold raw_score, _score_position_preferences. rewrite Hs, Hl.
  rewrite (index_app_l p [x] 0), (index_app_l p [x] 18) by lia.
  rewrite E0, E18, E19.
  rewrite slice_to_app_l by lia. rewrite Eseed, Epam.
  cbn [bind Z.leb Z.compare Pos.compare Pos.compare_cont].
  split; [reflexivity|].
  destruct (Ascii.eqb c18 "G"), (Ascii.eqb x "G"), (Ascii.eqb c0 "C"); ring.
Qed.

Lemma raw_score_le_72 (g : Guide) (p : str) (x : ascii) (r : Q) :
  length p = 19%nat -> sequence g = p ++ [x] -> raw_score g = Ok r -> r <= 72.
Proof.
  intros Hp Hs Hr.
  destruct (raw_score_last g p x Hp Hs)
    as (c0 & c18 & seedq & pamq & r' & _ & _ & Hseed & Hpam & Hr' & E).
  rewrite Hr in Hr'. injection Hr' as <-.
  pose proof (score_gc_content_le (gc_content g)).
  pose proof (score_seed_le _ _ Hseed).
  pose proof (score_pam_proximal_le _ _ Hpam).
  pose proof (penalize_homopolymers_le (p ++ [x])).
  rewrite E.
  destruct (Ascii.eqb c18 "G"), (Ascii.eqb x "G"), (Ascii.eqb c0 "C"); lra.
Qed.




End TerminalG.

(* ===================================================================== *)
(** * The off-target estimator *)
(* ===================================================================== *)

Section OffTargetFacts.
Import Py GuideM OffTarget.
Context {RNG : Type} (randint : randint_t RNG).

Lemma estimate_count_eq (min_val max_val : Z) (st : RNG) :
  _estimate_count randint min_val max_val st =
  let r := randint (-2) 2 st in
  (int (inject_Z (min_val + max_val) / 2 + inject_Z (fst r))%Q, snd r).
Proof.
  unfold _estimate_count. now destruct (randint (-2) 2 st).
Qed.

(** The three assignments of one branch. *)
Lemma estimate3_eq (m : gmap Z Z) (r1 r2 r3 : Z * Z) (st : RNG) :
  fst (estimate3 randint m r1 r2 r3 st) =
  let '(n1, n2, n3) := draws3 randint st in
  <[3 := int (inject_Z (fst r3 + snd r3) / 2 + inject_Z n3)%Q]>
    (<[2 := int (inject_Z (fst r2 + snd r2) / 2 + inject_Z n2)%Q]>
       (<[1 := int (inject_Z (fst r1 + snd r1) / 2 + inject_Z n1)%Q]> m)).
Proof.
  unfold estimate3, draws3. rewrite !estimate_count_eq.
  destruct (randint (-2) 2 st) as [n1 st1]. cbn [fst snd].
  rewrite !estimate_count_eq.
  destruct (randint (-2) 2 st1) as [n2 st2]. cbn [fst snd].
  rewrite !estimate_count_eq.
  destruct (randint (-2) 2 st2) as [n3 st3]. reflexivity.
Qed.

Lemma draws3_range (st : RNG) :
  (forall s, -2 <= fst (randint (-2) 2 s) <= 2) ->
  let '(n1, n2, n3) := draws3 randint st in
  (-2 <= n1 <= 2) /\ (-2 <= n2 <= 2) /\ (-2 <= n3 <= 2).
Proof.
  intros Hr. unfold draws3.
  pose proof (Hr st) as H1. destruct (randint (-2) 2 st) as [n1 st1].
  pose proof (Hr st1) as H2. destruct (randint (-2) 2 st1) as [n2 st2].
  pose proof (Hr st2) as H3. destruct (randint (-2) 2 st2) as [n3 st3].
  cbn [fst] in *. auto.
Qed.

(** The complexity score is defined unless the sequence has 0 or 3
    symbols (a division by zero). *)
Lemma calculate_complexity_ok (s : str) :
  len s <> 0 -> len s <> 3 -> exists c, _calculate_complexity s = Ok c.
Proof.
  intros H0 H3. unfold _calculate_complexity.
  rewrite truediv_ok by (change (4 ^ 4) with 256; lia). cbn [bind].
  rewrite truediv_ok by assumption. cbn [bind]. eauto.
Qed.

Lemma branch_shape (m0 : gmap Z Z) (r1 r2 r3 : Z * Z) (st : RNG) :
  m0 = <[0 := 1]> (<[1 := 0]> (<[2 := 0]> (<[3 := 0]> ∅))) ->
  let m := fst (estimate3 randint m0 r1 r2 r3 st) in
  dom m = ({[0; 1; 2; 3]} : gset Z) /\ m !! 0 = Some 1 /\
  counts_from m r1 r2 r3 (draws3 randint st).
Proof.
  intros ->. cbv zeta. rewrite estimate3_eq. unfold counts_from.
  destruct (draws3 randint st) as [[n1 n2] n3].
  split; [|split; [|split; [|split]]].
  - rewrite !dom_insert_L, dom_empty_L. set_solver.
  - now simplify_map_eq.
  - now simplify_map_eq.
  - now simplify_map_eq.
  - now simplify_map_eq.
Qed.

End OffTargetFacts.

Section OffTargetClaims.
Import Py GuideM OffTarget.

(** C6 as stated fails: the counts are integers, the midpoints are not
    always. For this guide of the high-complexity bucket and a noise of 0,
    the 1-mismatch count is [int(1.5 + 0) = 1], which is not
    [(0 + 3) / 2 + noise] for any integer noise. *)
Lemma off_target_midpoint_counterexample :
  let guide := new_guide (lit "GGAAGACTCCAGTGGTAATC") (lit "TGG") (lit "chr17")
                         100 119 (lit "+") in
  exists complexity m st',
    _calculate_complexity (sequence guide) = Ok complexity /\
    (7 # 10 <= complexity)%Q /\
    search_off_targets (stub_randint 0) guide 0%nat = Ok (m, st') /\
    m !! 1 = Some 1 /\
    ~ (exists noise : Z,
         -2 <= noise <= 2 /\
         (inject_Z 1 == inject_Z (0 + 3) / 2 + inject_Z noise)%Q).
Proof.
  cbv zeta. eexists. eexists. eexists.
  split; [vm_compute; reflexivity|].
  split; [vm_compute; discriminate|].
  split; [vm_compute; reflexivity|].
  split; [vm_compute; reflexivity|].
  intros [noise [_ H]]. unfold Qeq in H. simpl in H. lia.
Qed.

(** C6, amended. For a guide whose sequence has neither 0 nor 3 symbols
    (so that the complexity score is defined) and a generator whose draws
    for [randint(-2, 2)] lie in {-2, ..., 2}, [search_off_targets] returns a mapping
    with exactly the keys 0, 1, 2, 3, with 1 at key 0, and at keys 1, 2, 3
    the value [int((min + max) / 2 + noise)], truncated toward zero, for
    the three successive draws [noise] in {-2, ..., 2}; the ranges are
    (5,15), (20,50), (80,200) when the complexity is below 0.5,
    (1,5), (5,20), (20,80) when it is below 0.7, and
    (0,3), (2,10), (10,40) otherwise. *)
Theorem search_off_targets_shape
    {RNG : Type} (randint : randint_t RNG) (guide : Guide) (st : RNG) :
  (forall s, -2 <= fst (randint (-2) 2 s) <= 2) ->
  len (sequence guide) <> 0 -> len (sequence guide) <> 3 ->
  exists complexity m st',
    _calculate_complexity (sequence guide) = Ok complexity /\
    search_off_targets randint guide st = Ok (m, st') /\
    dom m = ({[0; 1; 2; 3]} : gset Z) /\
    m !! 0 = Some 1 /\
    (let '(n1, n2, n3) := draws3 randint st in
     (-2 <= n1 <= 2) /\ (-2 <= n2 <= 2) /\ (-2 <= n3 <= 2)) /\
    ((complexity < 5 # 10)%Q ->
     counts_from m (5, 15) (20, 50) (80, 200) (draws3 randint st)) /\
    ((5 # 10 <= complexity)%Q -> (complexity < 7 # 10)%Q ->
     counts_from m (1, 5) (5, 20) (20, 80) (draws3 randint st)) /\
    ((7 # 10 <= complexity)%Q ->
     counts_from m (0, 3) (2, 10) (10, 40) (draws3 randint st)).
Proof.
  intros Hrange H0 H3.
  destruct (calculate_complexity_ok (sequence guide) H0 H3) as [c Ec].
  exists c. unfold search_off_targets. rewrite Ec. cbn [bind].
  pose proof (draws3_range randint st Hrange) as Hdraws.
  destruct (Qltb c (5 # 10)) eqn:E5; [|destruct (Qltb c (7 # 10)) eqn:E7].
  - apply Qltb_lt in E5.
    match goal with |- context [estimate3 randint ?m0 ?r1 ?r2 ?r3 st] =>
      pose proof (branch_shape randint m0 r1 r2 r3 st eq_refl) as (Hd & Hz & Hc);
      destruct (estimate3 randint m0 r1 r2 r3 st) as [m st'] end.
    exists m, st'. cbn [fst] in *.
    repeat (split; [first [reflexivity | assumption]|]).
    split; [intros _; exact Hc|]. split; intros; exfalso; lra.
  - apply Qltb_ge in E5. apply Qltb_lt in E7.
    match goal with |- context [estimate3 randint ?m0 ?r1 ?r2 ?r3 st] =>
      pose proof (branch_shape randint m0 r1 r2 r3 st eq_refl) as (Hd & Hz & Hc);
      destruct (estimate3 randint m0 r1 r2 r3 st) as [m st'] end.
    exists m, st'. cbn [fst] in *.
    repeat (split; [first [reflexivity | assumption]|]).
    split; [intros; exfalso; lra|]. split; [intros _ _; exact Hc | intros; exfalso; lra].
  - apply Qltb_ge in E5, E7.
    match goal with |- context [estimate3 randint ?m0 ?r1 ?r2 ?r3 st] =>
      pose proof (branch_shape randint m0 r1 r2 r3 st eq_refl) as (Hd & Hz & Hc);
      destruct (estimate3 randint m0 r1 r2 r3 st) as [m st'] end.
    exists m, st'. cbn [fst] in *.
    repeat (split; [first [reflexivity | assumption]|]).
    split; [intros; exfalso; lra|]. split; [intros; exfalso; lra | intros _; exact Hc].
Qed.

Lemma search_off_targets_shape_witness :
  exists complexity m st',
    _calculate_complexity (lit "GGAAGACTCCAGTGGTAATC") = Ok complexity /\
    search_off_targets (stub_randint 1)
      (new_guide (lit "GGAAGACTCCAGTGGTAATC") (lit "TGG") (lit "chr17") 100 119 (lit "+"))
      0%nat = Ok (m, st') /\
    dom m = ({[0; 1; 2; 3]} : gset Z) /\
    m !! 0 = Some 1 /\
    (let '(n1, n2, n3) := draws3 (stub_randint 1) 0%nat in
     (-2 <= n1 <= 2) /\ (-2 <= n2 <= 2) /\ (-2 <= n3 <= 2)) /\
    ((complexity < 5 # 10)%Q ->
     counts_from m (5, 15) (20, 50) (80, 200) (draws3 (stub_randint 1) 0%nat)) /\
    ((5 # 10 <= complexity)%Q -> (complexity < 7 # 10)%Q ->
     counts_from m (1, 5) (5, 20) (20, 80) (draws3 (stub_randint 1) 0%nat)) /\
    ((7 # 10 <= complexity)%Q ->
     counts_from m (0, 3) (2, 10) (10, 40) (draws3 (stub_randint 1) 0%nat)).
Proof.
  apply (search_off_targets_shape (stub_randint 1)
           (new_guide (lit "GGAAGACTCCAGTGGTAATC") (lit "TGG") (lit "chr17") 100 119 (lit "+"))
           0%nat).
  - intros s. cbn [stub_randint fst]. lia.
  - vm_compute. discriminate.
  - vm_compute. discriminate.
Defined.

Lemma draws3_stubbed {RNG : Type} (randint : randint_t RNG) (c : Z) (st : RNG) :
  (forall a b s, fst (randint a b s) = c) -> draws3 randint st = (c, c, c).
Proof.
  intros Hc. unfold draws3.
  pose proof (Hc (-2) 2 st) as H1. destruct (randint (-2) 2 st) as [n1 st1].
  pose proof (Hc (-2) 2 st1) as H2. destruct (randint (-2) 2 st1) as [n2 st2].
  pose proof (Hc (-2) 2 st2) as H3. destruct (randint (-2) 2 st2) as [n3 st3].
  cbn [fst] in *. congruence.
Qed.

Lemma estimate3_stubbed {RNG : Type} (randint : randint_t RNG) (c : Z)
      (m : gmap Z Z) (r1 r2 r3 : Z * Z) (st1 st2 : RNG) :
  (forall a b s, fst (randint a b s) = c) ->
  fst (estimate3 randint m r1 r2 r3 st1) = fst (estimate3 randint m r1 r2 r3 st2).
Proof.
  intros Hc. rewrite !estimate3_eq, !(draws3_stubbed randint c) by assumption.
  reflexivity.
Qed.

(** C7. With the randomness source stubbed to a fixed value [c], two
    calls of [search_off_targets] on the same guide return the same
    mapping, from whatever generator states they start; in particular a
    second call that continues from the state the first one left. *)
Theorem search_off_targets_stub_deterministic
    {RNG : Type} (randint : randint_t RNG) (c : Z) (guide : Guide) (st1 st2 : RNG) :
  (forall a b s, fst (randint a b s) = c) ->
  mapping_of (search_off_targets randint guide st1)
  = mapping_of (search_off_targets randint guide st2) /\
  (forall m1 st', search_off_targets randint guide st1 = Ok (m1, st') ->
     mapping_of (search_off_targets randint guide st') = Ok m1).
Proof.
  intros Hc.
  assert (Hany : forall sa sb,
             mapping_of (search_off_targets randint guide sa)
             = mapping_of (search_off_targets randint guide sb)).
  { intros sa sb. unfold search_off_targets, mapping_of.
    destruct (_calculate_complexity (sequence guide)) as [cx|e]; cbn [bind];
      [|reflexivity].
    destruct (Qltb cx (5 # 10)); [|destruct (Qltb cx (7 # 10))]; cbn [bind];
      f_equal; apply (estimate3_stubbed randint c); assumption. }
  split; [apply Hany|].
  intros m1 st' E. rewrite (Hany st' st1), E. reflexivity.
Qed.

Lemma search_off_targets_stub_deterministic_witness :
  mapping_of (search_off_targets (stub_randint 2)
                (new_guide (lit "GGAAGACTCCAGTGGTAATC") (lit "TGG") (lit "chr17")
                           100 119 (lit "+")) 0%nat)
  = mapping_of (search_off_targets (stub_randint 2)
                  (new_guide (lit "GGAAGACTCCAGTGGTAATC") (lit "TGG") (lit "chr17")
                             100 119 (lit "+")) 3%nat) /\
  (forall m1 st',
     search_off_targets (stub_randint 2)
       (new_guide (lit "GGAAGACTCCAGTGGTAATC") (lit "TGG") (lit "chr17")
                  100 119 (lit "+")) 0%nat = Ok (m1, st') ->
     mapping_of (search_off_targets (stub_randint 2)
                   (new_guide (lit "GGAAGACTCCAGTGGTAATC") (lit "TGG") (lit "chr17")
                              100 119 (lit "+")) st') = Ok m1).
Proof.
  apply (search_off_targets_stub_deterministic (stub_randint 2) 2).
  intros a b s. reflexivity.
Defined.

End OffTargetClaims.

(* ===================================================================== *)
(** * The ranker *)
(* ===================================================================== *)

Section KeyOrder.
Import Py Rank.

Lemma key_ltb_false_le (a b : Q * Z * Z) : key_ltb b a = false -> key_le a b.
Proof.
  destruct a as [[a1 a2] a3], b as [[b1 b2] b3]. unfold key_ltb, key_le.
  destruct (Qeq_bool b1 a1) eqn:E1; cbn [negb].
  - apply Qeq_bool_iff in E1.
    destruct (Z.eqb_spec b2 a2) as [->|Hne]; cbn [negb].
    + intros H. apply Z.ltb_ge in H. right. split; [now symmetry|]. right. now split.
    + intros H. apply Z.ltb_ge in H. right. split; [now symmetry|]. left. lia.
  - apply Qeq_bool_neq in E1. intros H. apply Qltb_ge in H.
    left. apply Qle_lt_or_eq in H. destruct H as [H | H]; [exact H|].
    exfalso. apply E1. now symmetry.
Qed.

Lemma key_le_ltb_false (a b : Q * Z * Z) : key_le a b -> key_ltb b a = false.
Proof.
  destruct a as [[a1 a2] a3], b as [[b1 b2] b3]. unfold key_ltb, key_le.
  intros [H | [E H]].
  - assert (E1 : Qeq_bool b1 a1 = false).
    { destruct (Qeq_bool b1 a1) eqn:E1; [|reflexivity].
      apply Qeq_bool_iff in E1. lra. }
    rewrite E1. cbn [negb]. apply Qltb_ge. lra.
  - assert (E1 : Qeq_bool b1 a1 = true) by (apply Qeq_bool_iff; lra).
    rewrite E1. cbn [negb].
    destruct (Z.eqb_spec b2 a2); cbn [negb]; apply Z.ltb_ge; lia.
Qed.

Lemma key_ltb_true_le (a b : Q * Z * Z) : key_ltb a b = true -> key_le a b.
Proof.
  destruct a as [[a1 a2] a3], b as [[b1 b2] b3]. unfold key_ltb, key_le.
  destruct (Qeq_bool a1 b1) eqn:E1; cbn [negb].
  - apply Qeq_bool_iff in E1.
    destruct (Z.eqb_spec a2 b2) as [->|Hne]; cbn [negb].
    + intros H. apply Z.ltb_lt in H. right. split; [assumption|]. right. split; lia.
    + intros H. apply Z.ltb_lt in H. right. split; [assumption|]. now left.
  - intros H. apply Qltb_lt in H. now left.
Qed.

Lemma key_le_trans (a b c : Q * Z * Z) : key_le a b -> key_le b c -> key_le a c.
Proof.
  destruct a as [[a1 a2] a3], b as [[b1 b2] b3], c as [[c1 c2] c3]. unfold key_le.
  intros [H1 | [E1 H1]] [H2 | [E2 H2]].
  - left. lra.
  - left. lra.
  - left. lra.
  - right. split; [lra|]. lia.
Qed.

(** Two keys equal to a third are not strictly ordered. *)
Lemma key_eqb_not_ltb (a b k : Q * Z * Z) :
  key_eqb a k = true -> key_eqb b k = true -> key_ltb a b = false.
Proof.
  destruct a as [[a1 a2] a3], b as [[b1 b2] b3], k as [[k1 k2] k3].
  unfold key_eqb, key_ltb. rewrite !andb_true_iff, !Z.eqb_eq, !Qeq_bool_iff.
  intros [[Ea -> ] ->] [[Eb ->] ->].
  assert (E : Qeq_bool a1 b1 = true) by (apply Qeq_bool_iff; lra).
  rewrite E, Z.eqb_refl. cbn [negb]. apply Z.ltb_irrefl.
Qed.

End KeyOrder.

Section SortedFacts.
Import Py Rank.
Context {A : Type} (key : A -> Q * Z * Z).

Lemma insert_by_perm (x : A) (l : list A) : Permutation (insert_by key x l) (x :: l).
Proof.
  induction l as [|y l IH]; simpl; [reflexivity|].
  destruct (key_ltb (key y) (key x)); [|reflexivity].
  rewrite IH. apply perm_swap.
Qed.

Lemma sorted_perm (l : list A) : Permutation (sorted key l) l.
Proof.
  induction l as [|x l IH]; simpl; [reflexivity|].
  rewrite insert_by_perm. now apply perm_skip.
Qed.

Lemma insert_by_sorted (x : A) (l : list A) :
  StronglySorted (ascending key) l -> StronglySorted (ascending key) (insert_by key x l).
Proof.
  induction 1 as [|y l Hs IH Hy]; simpl.
  - constructor; constructor.
  - destruct (key_ltb (key y) (key x)) eqn:E.
    + constructor; [exact IH|].
      eapply Permutation_Forall; [symmetry; apply insert_by_perm|].
      constructor; [|exact Hy]. now apply key_ltb_true_le.
    + assert (Hxy : ascending key x y) by now apply key_ltb_false_le.
      constructor; [now constructor|].
      constructor; [exact Hxy|].
      eapply List.Forall_impl; [|exact Hy].
      intros z Hz. now apply (key_le_trans _ (key y)).
Qed.

Lemma sorted_sorted (l : list A) : StronglySorted (ascending key) (sorted key l).
Proof.
  induction l as [|x l IH]; simpl; [constructor | now apply insert_by_sorted].
Qed.

(** Insertion does not reorder elements that carry the same key. *)
Lemma insert_by_filter (k : Q * Z * Z) (x : A) (l : list A) :
  List.filter (fun g => key_eqb (key g) k) (insert_by key x l)
  = List.filter (fun g => key_eqb (key g) k) (x :: l).
Proof.
  induction l as [|y l IH]; [reflexivity|].
  cbn [insert_by]. destruct (key_ltb (key y) (key x)) eqn:E; [|reflexivity].
  cbn [List.filter] in *. rewrite IH.
  destruct (key_eqb (key x) k) eqn:Ex, (key_eqb (key y) k) eqn:Ey; try reflexivity.
  rewrite (key_eqb_not_ltb _ _ _ Ey Ex) in E. discriminate.
Qed.

Lemma sorted_stable (k : Q * Z * Z) (l : list A) :
  List.filter (fun g => key_eqb (key g) k) (sorted key l)
  = List.filter (fun g => key_eqb (key g) k) l.
Proof.
  induction l as [|x l IH]; [reflexivity|].
  cbn [sorted]. rewrite insert_by_filter. cbn [List.filter]. now rewrite IH.
Qed.

(** A list that is already in order is returned as it is. *)
Lemma sorted_fixpoint (l : list A) :
  StronglySorted (ascending key) l -> sorted key l = l.
Proof.
  induction 1 as [|x l Hs IH Hx]; [reflexivity|].
  cbn [sorted]. rewrite IH.
  destruct l as [|y l']; [reflexivity|].
  cbn [insert_by]. inversion Hx as [|? ? Hxy _]; subst.
  now rewrite (key_le_ltb_false _ _ Hxy).
Qed.

End SortedFacts.

Section RankClaims.
Import Py GuideM Rank.

(** C3. [rank_guides] returns a permutation of its input that is in
    ascending order of the tuple
    [(-efficiency_score, off_targets[0] + off_targets[1] + off_targets[2], start)];
    the sort is stable: guides with equal keys keep their input order; a
    second call on the same input gives the same list, and ranking an
    already ranked list changes nothing. *)
Theorem rank_guides_sorted_stable (guides : list Guide) :
  Permutation (rank_guides guides) guides /\
  StronglySorted
    (fun a b =>
       key_le ((- efficiency_score a)%Q,
               get0 (off_targets a) 0 + get0 (off_targets a) 1 + get0 (off_targets a) 2,
               start a)
              ((- efficiency_score b)%Q,
               get0 (off_targets b) 0 + get0 (off_targets b) 1 + get0 (off_targets b) 2,
               start b))
    (rank_guides guides) /\
  (forall k,
     List.filter (fun g => key_eqb (sort_key g) k) (rank_guides guides)
     = List.filter (fun g => key_eqb (sort_key g) k) guides) /\
  (let first_call := rank_guides guides in
   let second_call := rank_guides guides in
   first_call = second_call) /\
  rank_guides (rank_guides guides) = rank_guides guides.
Proof.
  unfold rank_guides. repeat split.
  - apply sorted_perm.
  - apply (sorted_sorted sort_key).
  - intros k. apply sorted_stable.
  - apply sorted_fixpoint. apply sorted_sorted.
Qed.

(** The guides of the ranking test of the repository: the order is
    90.0, 85.0, 80.0. *)
Example rank_guides_test :
  let g1 := set_off_targets
              (set_efficiency_score
                 (new_guide (lit "AAAAAAAAAAAAAAAAAAAA") (lit "TGG") (lit "chr1") 100 120 (lit "+")) 80)
              (<[0 := 1]> (<[1 := 2]> (<[2 := 5]> (<[3 := 10]> ∅)))) in
  let g2 := set_off_targets
              (set_efficiency_score
                 (new_guide (lit "CCCCCCCCCCCCCCCCCCCC") (lit "TGG") (lit "chr1") 200 220 (lit "+")) 90)
              (<[0 := 1]> (<[1 := 1]> (<[2 := 3]> (<[3 := 8]> ∅)))) in
  let g3 := set_off_targets
              (set_efficiency_score
                 (new_guide (lit "GGGGGGGGGGGGGGGGGGGG") (lit "TGG") (lit "chr1") 300 320 (lit "+")) 85)
              (<[0 := 1]> (<[1 := 5]> (<[2 := 10]> (<[3 := 20]> ∅)))) in
  rank_guides [g1; g2; g3] = [g2; g3; g1].
Proof. vm_compute. reflexivity. Qed.

End RankClaims.

(* ===================================================================== *)
(** * More on the motif scanner *)
(* ===================================================================== *)

Section ScannerFacts.
Import Py GuideM Extract.

Lemma finditer_NGG_hit (s : str) :
  forall i skip p, In p (finditer_NGG s i skip) ->
    i + Z.of_nat skip <= p /\ match_NGG (skipn (Z.to_nat (p - i)) s) = true.
Proof.
  induction s as [|c tl IH]; intros i skip p Hp; cbn [finditer_NGG] in Hp;
    [contradiction|].
  assert (Hstep : forall k, In p (finditer_NGG tl (i + 1) k) ->
            i + 1 + Z.of_nat k <= p /\
            match_NGG (skipn (Z.to_nat (p - i)) (c :: tl)) = true).
  { intros k Hk. apply IH in Hk. destruct Hk as [Hlo Hm]. split; [exact Hlo|].
    replace (Z.to_nat (p - i)) with (S (Z.to_nat (p - (i + 1)))) by lia.
    exact Hm. }
  destruct skip as [|k].
  - destruct (match_NGG (c :: tl)) eqn:M.
    + cbn [In] in Hp. destruct Hp as [<- | Hp].
      * split; [lia|]. now rewrite Z.sub_diag.
      * apply Hstep in Hp. split; [lia | tauto].
    + apply Hstep in Hp. split; [lia | tauto].
  - apply Hstep in Hp. split; [lia | tauto].
Qed.

Lemma finditer_NGG_spaced (s : str) :
  forall i skip, StronglySorted (fun a b => a + 3 <= b) (finditer_NGG s i skip).
Proof.
  induction s as [|c tl IH]; intros i skip; cbn [finditer_NGG]; [constructor|].
  destruct skip as [|k]; [|apply IH].
  destruct (match_NGG (c :: tl)); [|apply IH].
  constructor; [apply IH|].
  apply List.Forall_forall. intros p Hp. apply finditer_NGG_hit in Hp. lia.
Qed.

Lemma finditer_NGG_covers (s : str) :
  forall i skip n,
    (skip <= n)%nat -> match_NGG (skipn n s) = true ->
    exists p, In p (finditer_NGG s i skip) /\
              i + Z.of_nat n - 2 <= p <= i + Z.of_nat n.
Proof.
  induction s as [|c tl IH]; intros i skip n Hn Hm.
  - rewrite skipn_nil in Hm. discriminate.
  - cbn [finditer_NGG]. destruct skip as [|k].
    + destruct (match_NGG (c :: tl)) eqn:M.
      * destruct (Nat.le_gt_cases n 2) as [Hsmall | Hbig].
        -- exists i. split; [now left | lia].
        -- destruct n as [|n']; [lia|]. cbn [skipn] in Hm.
           destruct (IH (i + 1) 2%nat n') as [p [Hp Hr]]; [lia | exact Hm |].
           exists p. split; [now right | lia].
      * destruct n as [|n']; [cbn [skipn] in Hm; congruence|]. cbn [skipn] in Hm.
        destruct (IH (i + 1) 0%nat n') as [p [Hp Hr]]; [lia | exact Hm |].
        exists p. split; [exact Hp | lia].
    + destruct n as [|n']; [lia|]. cbn [skipn] in Hm.
      destruct (IH (i + 1) k n') as [p [Hp Hr]]; [lia | exact Hm |].
      exists p. split; [exact Hp | lia].
Qed.

Lemma pam_site_window (sequence pam_type : str) (p : Z) :
  In p (find_pam_sites sequence pam_type) ->
  exists c, slice (upper sequence) p (p + 3) = [c; "G"; "G"]%char /\ is_ATCG c = true.
Proof.
  intros Hp. pose proof (find_pam_sites_bounds _ _ _ Hp) as [H0 H3].
  unfold find_pam_sites in Hp.
  destruct (str_eqb pam_type (lit "SpCas9")); [|contradiction].
  apply finditer_NGG_hit in Hp. destruct Hp as [_ Hm].
  rewrite Z.sub_0_r in Hm. apply match_NGG_inv in Hm.
  destruct Hm as [c [post [E Hc]]]. exists c. split; [|exact Hc].
  rewrite slice_in_range by (rewrite ?upper_len; lia).
  rewrite E. replace (Z.to_nat (p + 3 - p)) with 3%nat by lia. reflexivity.
Qed.

(** Every reported PAM position is the start of a window [[ATCG]GG] of
    the upper-cased text. *)
Theorem find_pam_sites_windows (sequence pam_type : str) (p : Z) :
  In p (find_pam_sites sequence pam_type) ->
  0 <= p /\ p + 3 <= len sequence /\
  exists c, slice (upper sequence) p (p + 3) = [c; "G"; "G"]%char /\ is_ATCG c = true.
Proof.
  intros Hp. pose proof (find_pam_sites_bounds _ _ _ Hp) as [H0 H3].
  split; [exact H0|]. split; [exact H3|]. exact (pam_site_window _ _ _ Hp).
Qed.

Lemma find_pam_sites_windows_witness :
  0 <= 12 /\ 12 + 3 <= len (lit "ACGTACGTACGTAGG") /\
  exists c, slice (upper (lit "ACGTACGTACGTAGG")) 12 (12 + 3) = [c; "G"; "G"]%char /\
            is_ATCG c = true.
Proof.
  apply (find_pam_sites_windows (lit "ACGTACGTACGTAGG") (lit "SpCas9") 12).
  vm_compute. left. reflexivity.
Defined.

(** The reported positions increase, and two of them are at least three
    apart: the reported windows never overlap. *)
Theorem find_pam_sites_spaced (sequence pam_type : str) :
  StronglySorted (fun a b => a + 3 <= b) (find_pam_sites sequence pam_type).
Proof.
  unfold find_pam_sites.
  destruct (str_eqb pam_type (lit "SpCas9")); [apply finditer_NGG_spaced | constructor].
Qed.

(** A window [[ATCG]GG] that is not reported itself is overlapped by a
    reported one: for a window at index [len pre] some reported position
    lies at most two symbols before it. *)
Theorem find_pam_sites_covers (sequence pre post : str) (c : ascii) :
  upper sequence = pre ++ c :: "G"%char :: "G"%char :: post ->
  is_ATCG c = true ->
  exists p, In p (find_pam_sites sequence (lit "SpCas9")) /\
            len pre - 2 <= p <= len pre.
Proof.
  intros E Hc. unfold find_pam_sites. rewrite str_eqb_refl.
  destruct (finditer_NGG_covers (upper sequence) 0 0%nat (List.length pre)) as [p [Hp Hr]].
  - lia.
  - rewrite E, List.skipn_app, List.skipn_all, Nat.sub_diag. cbn [app skipn match_NGG].
    now rewrite Hc, !Ascii.eqb_refl.
  - exists p. split; [exact Hp|]. unfold len. lia.
Qed.

Lemma find_pam_sites_covers_witness :
  exists p, In p (find_pam_sites (lit "AGGGG") (lit "SpCas9")) /\
            len (lit "AG") - 2 <= p <= len (lit "AG").
Proof.
  apply (find_pam_sites_covers (lit "AGGGG") (lit "AG") (lit "") "G"%char).
  - reflexivity.
  - reflexivity.
Defined.

End ScannerFacts.

Section GuideFields.
Import Py GuideM Extract.

Lemma count_le_len (a b : ascii) (s : str) :
  a <> b -> 0 <= count a s + count b s <= len s.
Proof.
  intros Hab. unfold count, len.
  induction s as [|c s IH]; cbn [List.filter List.length]; [lia|].
  destruct (Ascii.eqb_spec a c) as [->|Ha], (Ascii.eqb_spec b c) as [->|Hb];
    cbn [List.length]; try lia.
  congruence.
Qed.

(** The GC percentage that [calculate_gc_content] stores. *)
Lemma calculate_gc_content_range (g : Guide) :
  gc_content g = 0%Q ->
  (0 <= gc_content (snd (calculate_gc_content g)) <= 100)%Q.
Proof.
  intros H0. unfold calculate_gc_content.
  destruct (sequence g) as [|c s] eqn:Es; cbn [snd].
  - rewrite H0. split; discriminate.
  - cbn [set_gc_content gc_content].
    pose proof (count_le_len "G" "C" (c :: s)) as Hc.
    assert (Hl : 0 < len (c :: s)) by (unfold len; cbn [List.length]; lia).
    set (n := count "G" (c :: s) + count "C" (c :: s)) in *.
    set (l := len (c :: s)) in *.
    assert (Hn : 0 <= n <= l) by (apply Hc; discriminate).
    assert (Hq : (0 <= inject_Z n / inject_Z l <= 1)%Q).
    { assert (Hlq : (0 < inject_Z l)%Q) by (rewrite <- (Zlt_Qlt 0); exact Hl).
      split.
      - apply Qle_shift_div_l; [exact Hlq|]. rewrite Qmult_0_l.
        rewrite <- (Zle_Qle 0). lia.
      - apply Qle_shift_div_r; [exact Hlq|]. rewrite Qmult_1_l.
        rewrite <- Zle_Qle. lia. }
    lra.
Qed.

(** What the tail of the loop bodies leaves in the guide it appends. *)
Lemma finish_guide_fields gene_name apply_filters guides guide g :
  In g (finish_guide gene_name apply_filters guides guide) ->
  In g guides \/
  (efficiency_score g = efficiency_score guide /\
   off_targets g = off_targets guide /\
   exon g = exon guide /\
   GuideM.gene_name g = (if truthy gene_name then gene_name else GuideM.gene_name guide) /\
   gc_content g = gc_content (snd (calculate_gc_content guide)) /\
   (apply_filters = true -> passes_quality_filters g 40 60 4 = true)).
Proof.
  unfold finish_guide.
  set (g1 := snd (calculate_gc_content guide)).
  set (g2 := if truthy gene_name then set_gene_name g1 gene_name else g1).
  assert (E : efficiency_score g2 = efficiency_score guide /\
              off_targets g2 = off_targets guide /\
              exon g2 = exon guide /\
              GuideM.gene_name g2
              = (if truthy gene_name then gene_name else GuideM.gene_name guide) /\
              gc_content g2 = gc_content g1).
  { subst g2 g1. unfold calculate_gc_content.
    destruct (truthy gene_name), (sequence guide); cbn; tauto. }
  intros Hg.
  destruct apply_filters.
  - destruct (passes_quality_filters g2 40 60 4) eqn:Ep; [|now left].
    apply in_app_or in Hg. destruct Hg as [Hg | [<- | []]]; [now left | right].
    intuition.
  - apply in_app_or in Hg. destruct Hg as [Hg | [<- | []]]; [now left | right].
    intuition discriminate.
Qed.

(** The fields of every emitted guide that do not depend on the hit. *)
Lemma extract_guides_fields sequence chromosome start_position gene_name pam_type
      guide_length apply_filters g :
  In g (extract_guides sequence chromosome start_position gene_name pam_type
                       guide_length apply_filters) ->
  GuideM.chromosome g = chromosome /\
  efficiency_score g = 0%Q /\
  off_targets g = default_off_targets /\
  exon g = None /\
  GuideM.gene_name g = (if truthy gene_name then gene_name else None) /\
  (0 <= gc_content g <= 100)%Q /\
  (apply_filters = true -> passes_quality_filters g 40 60 4 = true).
Proof.
  unfold extract_guides. intros Hg.
  set (P := fun (_ : Z) (g : Guide) =>
              GuideM.chromosome g = chromosome /\
              efficiency_score g = 0%Q /\
              off_targets g = default_off_targets /\
              exon g = None /\
              GuideM.gene_name g = (if truthy gene_name then gene_name else None) /\
              (0 <= gc_content g <= 100)%Q /\
              (apply_filters = true -> passes_quality_filters g 40 60 4 = true)).
  assert (Hfin : forall acc guide g',
             GuideM.chromosome guide = chromosome ->
             efficiency_score guide = 0%Q -> off_targets guide = default_off_targets ->
             exon guide = None -> GuideM.gene_name guide = None ->
             gc_content guide = 0%Q ->
             In g' (finish_guide gene_name apply_filters acc guide) ->
             In g' acc \/ P 0 g').
  { intros acc guide g' Hc He Ho Hx Hn Hgc Hin.
    pose proof (finish_guide_inv _ _ _ _ _ Hin) as [Hacc | (_ & _ & Hc' & _)];
      [now left|].
    pose proof (finish_guide_fields _ _ _ _ _ Hin) as [Hacc | (He' & Ho' & Hx' & Hn' & Hgc' & Hp)];
      [now left|].
    right. unfold P. rewrite Hc', He', Ho', Hx', Hn', Hgc', Hn.
    repeat split; try assumption; try apply (calculate_gc_content_range guide Hgc). }
  assert (Hplus : forall acc x g',
             In g' (plus_body (upper sequence) chromosome start_position gene_name
                              guide_length apply_filters acc x) -> In g' acc \/ P x g').
  { intros acc x g'. unfold plus_body.
    destruct (extract_guide_sequence (upper sequence) x guide_length (lit "+"));
      [|now left].
    apply Hfin; reflexivity. }
  assert (Hminus : forall acc x g',
             In g' (minus_body (upper sequence) (reverse_complement (upper sequence))
                               chromosome start_position gene_name
                               guide_length apply_filters acc x) -> In g' acc \/ P x g').
  { intros acc x g'. unfold minus_body.
    destruct (extract_guide_sequence (reverse_complement (upper sequence)) x guide_length
                                     (lit "+"));
      [|now left].
    apply Hfin; reflexivity. }
  apply (fold_left_In_inv _ P Hminus) in Hg.
  destruct Hg as [Hg | [x [_ HP]]]; [|exact HP].
  apply (fold_left_In_inv _ P Hplus) in Hg.
  destruct Hg as [[] | [x [_ HP]]]. exact HP.
Qed.

End GuideFields.

Section EmittedGuides.
Import Py GuideM Extract.

Lemma finish_guide_app gene_name apply_filters guides guide :
  finish_guide gene_name apply_filters guides guide
  = guides ++ finish_guide gene_name apply_filters [] guide.
Proof.
  unfold finish_guide.
  destruct apply_filters; [destruct (passes_quality_filters _ 40 60 4)|];
    cbn [app]; now rewrite ?List.app_nil_r.
Qed.

Lemma plus_body_app sequence chromosome start_position gene_name guide_length
      apply_filters guides p :
  plus_body sequence chromosome start_position gene_name guide_length apply_filters guides p
  = guides ++ plus_body sequence chromosome start_position gene_name guide_length
                        apply_filters [] p.
Proof.
  unfold plus_body.
  destruct (extract_guide_sequence sequence p guide_length (lit "+"));
    [apply finish_guide_app | now rewrite List.app_nil_r].
Qed.

Lemma minus_body_app sequence rev_comp_seq chromosome start_position gene_name
      guide_length apply_filters guides p :
  minus_body sequence rev_comp_seq chromosome start_position gene_name guide_length
             apply_filters guides p
  = guides ++ minus_body sequence rev_comp_seq chromosome start_position gene_name
                         guide_length apply_filters [] p.
Proof.
  unfold minus_body.
  destruct (extract_guide_sequence rev_comp_seq p guide_length (lit "+"));
    [apply finish_guide_app | now rewrite List.app_nil_r].
Qed.

Lemma fold_left_flat_map {A B : Type} (body : list A -> B -> list A) :
  (forall acc x, body acc x = acc ++ body [] x) ->
  forall xs acc, fold_left body xs acc = acc ++ flat_map (body []) xs.
Proof.
  intros Happ xs. induction xs as [|x xs IH]; intros acc; cbn [fold_left flat_map].
  - now rewrite List.app_nil_r.
  - rewrite IH, (Happ acc x). now rewrite <- List.app_assoc.
Qed.

(** The result of [extract_guides]: the guides of the forward hits in
    scan order, then those of the hits on the reverse complement. *)
Lemma extract_guides_flat sequence chromosome start_position gene_name pam_type
      guide_length apply_filters :
  extract_guides sequence chromosome start_position gene_name pam_type
                 guide_length apply_filters
  = flat_map (plus_body (upper sequence) chromosome start_position gene_name
                        guide_length apply_filters [])
             (find_pam_sites (upper sequence) pam_type)
    ++ flat_map (minus_body (upper sequence) (reverse_complement (upper sequence))
                            chromosome start_position gene_name
                            guide_length apply_filters [])
                (find_pam_sites (reverse_complement (upper sequence)) pam_type).
Proof.
  unfold extract_guides.
  rewrite (fold_left_flat_map _ (minus_body_app _ _ _ _ _ _ _)).
  now rewrite (fold_left_flat_map _ (plus_body_app _ _ _ _ _ _)).
Qed.

Lemma filter_flat_map {A B : Type} (f : B -> bool) (h : A -> list B) (xs : list A) :
  List.filter f (flat_map h xs) = flat_map (fun x => List.filter f (h x)) xs.
Proof.
  induction xs as [|x xs IH]; cbn [flat_map]; [reflexivity|].
  now rewrite List.filter_app, IH.
Qed.

Lemma finish_guide_filter gene_name guide :
  List.filter (fun g => passes_quality_filters g 40 60 4)
              (finish_guide gene_name false [] guide)
  = finish_guide gene_name true [] guide.
Proof.
  unfold finish_guide. cbn [app List.filter].
  now destruct (passes_quality_filters _ 40 60 4).
Qed.

(** Filtering inside the scan and filtering its unfiltered result give
    the same list: [extract_guides(apply_filters=True)] is
    [filter_guides_by_quality] applied to
    [extract_guides(apply_filters=False)], with the default thresholds. *)
Theorem extract_guides_filter_commutes
    (sequence chromosome : str) (start_position : Z) (gene_name : option str)
    (pam_type : str) (guide_length : Z) :
  extract_guides sequence chromosome start_position gene_name pam_type guide_length true
  = filter_guides_by_quality
      (extract_guides sequence chromosome start_position gene_name pam_type
                      guide_length false)
      40 60 4.
Proof.
  unfold filter_guides_by_quality. rewrite !extract_guides_flat.
  rewrite List.filter_app, !filter_flat_map. f_equal.
  - apply List.flat_map_ext. intros p. unfold plus_body.
    destruct (extract_guide_sequence (upper sequence) p guide_length (lit "+"));
      [now rewrite finish_guide_filter | reflexivity].
  - apply List.flat_map_ext. intros p. unfold minus_body.
    destruct (extract_guide_sequence (reverse_complement (upper sequence)) p
                                     guide_length (lit "+"));
      [now rewrite finish_guide_filter | reflexivity].
Qed.

End EmittedGuides.

Section EmittedGuideClaims.
Import Py GuideM Extract.

Lemma extract_guides_from_finish sequence chromosome start_position gene_name pam_type
      guide_length apply_filters g :
  In g (extract_guides sequence chromosome start_position gene_name pam_type
                       guide_length apply_filters) ->
  exists w pam_seq st en sd,
    In g (finish_guide gene_name apply_filters []
                       (new_guide w pam_seq chromosome st en sd)).
Proof.
  rewrite extract_guides_flat. intros Hg.
  apply in_app_or in Hg. destruct Hg as [Hg | Hg];
    apply in_flat_map in Hg; destruct Hg as [p [_ Hg]].
  - unfold plus_body in Hg.
    destruct (extract_guide_sequence (upper sequence) p guide_length (lit "+"));
      [eauto 10 | contradiction].
  - unfold minus_body in Hg.
    destruct (extract_guide_sequence (reverse_complement (upper sequence)) p guide_length
                                     (lit "+"));
      [eauto 10 | contradiction].
Qed.

(** Every guide that [extract_guides] emits is well formed: its sequence
    has exactly [guide_length] symbols, all in ATCG; its PAM is one of
    these symbols followed by GG; [full_sequence] has [guide_length + 3]
    symbols; the chromosome is the one passed in, the strand is ['+'] or
    ['-']; the guide is not scored yet and carries the gene name when a
    non-empty one was given. *)
Theorem extract_guides_wellformed
    (sequence chromosome : str) (start_position : Z) (gene_name : option str)
    (pam_type : str) (guide_length : Z) (apply_filters : bool) (g : Guide) :
  In g (extract_guides sequence chromosome start_position gene_name pam_type
                       guide_length apply_filters) ->
  len (GuideM.sequence g) = guide_length /\
  forallb is_ATCG (GuideM.sequence g) = true /\
  (exists c, pam g = [c; "G"; "G"]%char /\ is_ATCG c = true) /\
  len (full_sequence g) = guide_length + 3 /\
  GuideM.chromosome g = chromosome /\
  (strand g = lit "+" \/ strand g = lit "-") /\
  efficiency_score g = 0%Q /\
  off_targets g = default_off_targets /\
  GuideM.gene_name g = (if truthy gene_name then gene_name else None).
Proof.
  intros Hg.
  pose proof (extract_guides_fields _ _ _ _ _ _ _ _ Hg)
    as (Hc & He & Ho & _ & Hn & _ & _).
  apply extract_guides_inv in Hg.
  assert (H : len (GuideM.sequence g) = guide_length /\
              forallb is_ATCG (GuideM.sequence g) = true /\
              (exists c, pam g = [c; "G"; "G"]%char /\ is_ATCG c = true) /\
              (strand g = lit "+" \/ strand g = lit "-")).
  { destruct Hg as [[p (Hin & Hw & Hpam & _ & _ & Hs)] | [p (Hin & Hw & Hpam & _ & _ & Hs)]].
    - apply extract_guide_sequence_plus_inv in Hw. destruct Hw as (_ & _ & Hl & Hf).
      apply pam_site_window in Hin. rewrite upper_idem, <- Hpam in Hin. tauto.
    - apply extract_guide_sequence_plus_inv in Hw. destruct Hw as (_ & _ & Hl & Hf).
      apply pam_site_window in Hin. rewrite upper_reverse_complement, <- Hpam in Hin.
      tauto. }
  destruct H as (Hl & Hf & [c [Hp Hcc]] & Hs).
  repeat split; try assumption.
  - now exists c.
  - unfold full_sequence. rewrite len_app, Hl, Hp. reflexivity.
Qed.

Lemma extract_guides_wellformed_witness :
  len (lit "AAAAAAAAAAAAAAAAAAAA") = 20 /\
  forallb is_ATCG (lit "AAAAAAAAAAAAAAAAAAAA") = true /\
  (exists c, lit "TGG" = [c; "G"; "G"]%char /\ is_ATCG c = true) /\
  len (lit "AAAAAAAAAAAAAAAAAAAA" ++ lit "TGG") = 20 + 3 /\
  lit "chr1" = lit "chr1" /\
  (lit "+" = lit "+" \/ lit "+" = lit "-") /\
  0%Q = 0%Q /\
  default_off_targets = default_off_targets /\
  (None : option str) = (if truthy None then None else None).
Proof.
  apply (extract_guides_wellformed
           (lit "AAAAAAAAAAAAAAAAAAAATGGCCCCCCCCCC") (lit "chr1") 1 None (lit "SpCas9") 20 false
           (set_gc_content
              (new_guide (lit "AAAAAAAAAAAAAAAAAAAA") (lit "TGG") (lit "chr1") 1 20 (lit "+"))
              ((inject_Z 0 / inject_Z 20) * 100)%Q)).
  vm_compute. left. reflexivity.
Defined.

Lemma emitted_gc_content
    (sequence chromosome : str) (start_position : Z) (gene_name : option str)
    (pam_type : str) (guide_length : Z) (apply_filters : bool) (g : Guide) :
  In g (extract_guides sequence chromosome start_position gene_name pam_type
                       guide_length apply_filters) ->
  calculate_gc_content g = (gc_content g, g) /\
  (0 <= gc_content g <= 100)%Q /\
  (GuideM.sequence g <> [] ->
   gc_content g
   = ((inject_Z (count "G" (GuideM.sequence g) + count "C" (GuideM.sequence g))
       / inject_Z (len (GuideM.sequence g))) * 100)%Q).
Proof.
  intros Hg.
  pose proof (extract_guides_fields _ _ _ _ _ _ _ _ Hg) as (_ & _ & _ & _ & _ & Hr & _).
  apply extract_guides_from_finish in Hg.
  destruct Hg as (w & pam_seq & st & en & sd & Hg).
  pose proof (finish_guide_inv _ _ _ _ _ Hg) as [[] | (Hs & _)].
  pose proof (finish_guide_fields _ _ _ _ _ Hg) as [[] | (_ & _ & _ & _ & Hgc & _)].
  cbn [GuideM.sequence new_guide] in Hs.
  unfold calculate_gc_content in Hgc |- *. cbn [GuideM.sequence new_guide] in Hgc.
  rewrite Hs. destruct w as [|c w].
  - cbn [snd gc_content new_guide] in Hgc. rewrite Hgc.
    split; [reflexivity|]. split; [split; discriminate | congruence].
  - cbn [snd gc_content set_gc_content] in Hgc. rewrite <- Hgc.
    split; [|split; [exact Hr | reflexivity]].
    f_equal. destruct g. reflexivity.
Qed.



End EmittedGuideClaims.

Section GuideLocation.
Import Py GuideM Extract.

(** A slice of the reverse complement is the reverse complement of the
    mirrored slice. *)
Lemma slice_reverse_complement (s : str) (a b : Z) :
  0 <= a -> a <= b -> b <= len s ->
  slice (reverse_complement s) a b
  = reverse_complement (slice s (len s - b) (len s - a)).
Proof.
  intros Ha Hab Hb.
  rewrite slice_in_range by (rewrite ?reverse_complement_len; lia).
  rewrite (slice_in_range s) by lia.
  unfold reverse_complement.
  rewrite List.skipn_rev, List.firstn_rev. f_equal.
  rewrite <- List.firstn_map, <- List.skipn_map.
  rewrite List.firstn_skipn_comm, List.length_firstn, List.length_map.
  unfold len in *. f_equal; [lia | f_equal; lia].
Qed.

(** A plus-strand guide lies where its coordinates say: with the first
    base of the input at [start_position], the upper-cased input between
    [start] and [end] is the guide sequence and the next three symbols are
    its PAM. *)
Theorem plus_guide_location
    (sequence chromosome : str) (start_position : Z) (gene_name : option str)
    (pam_type : str) (guide_length : Z) (apply_filters : bool) (g : Guide) :
  In g (extract_guides sequence chromosome start_position gene_name pam_type
                       guide_length apply_filters) ->
  strand g = lit "+" ->
  0 <= start g - start_position /\
  end_ g - start_position + 4 <= len sequence /\
  slice (upper sequence) (start g - start_position) (end_ g - start_position + 1)
  = GuideM.sequence g /\
  slice (upper sequence) (end_ g - start_position + 1) (end_ g - start_position + 4)
  = pam g.
Proof.
  intros Hg Hs. apply extract_guides_inv in Hg.
  destruct Hg as [[p (Hin & Hw & Hpam & Hst & Hen & _)] | [p (_ & _ & _ & _ & _ & Hm)]].
  - apply extract_guide_sequence_plus_inv in Hw. destruct Hw as (Hge & Hw & _).
    apply find_pam_sites_bounds in Hin. rewrite upper_len in Hin.
    rewrite upper_idem in Hw. rewrite Hst, Hen, Hw, Hpam.
    repeat split; try lia; f_equal; lia.
  - rewrite Hs in Hm. discriminate.
Qed.

Lemma plus_guide_location_witness :
  0 <= 1006 - 1001 /\
  1025 - 1001 + 4 <= len (lit "ACGTACGTACGTACGTACGTAGGCCCGGGAAATTTGGG") /\
  slice (upper (lit "ACGTACGTACGTACGTACGTAGGCCCGGGAAATTTGGG")) (1006 - 1001) (1025 - 1001 + 1)
  = lit "CGTACGTACGTACGTAGGCC" /\
  slice (upper (lit "ACGTACGTACGTACGTACGTAGGCCCGGGAAATTTGGG")) (1025 - 1001 + 1) (1025 - 1001 + 4)
  = lit "CGG".
Proof.
  apply (plus_guide_location
           (lit "ACGTACGTACGTACGTACGTAGGCCCGGGAAATTTGGG") (lit "chr1") 1001 None
           (lit "SpCas9") 20 false
           (set_gc_content
              (new_guide (lit "CGTACGTACGTACGTAGGCC") (lit "CGG") (lit "chr1") 1006 1025 (lit "+"))
              ((inject_Z 12 / inject_Z 20) * 100)%Q)).
  - vm_compute. right. left. reflexivity.
  - reflexivity.
Defined.

(** A minus-strand guide is the reverse complement of the input one
    position to the left of its coordinates: the guide sequence is the
    reverse complement of the upper-cased input between [start - 1] and
    [end - 1], and the PAM that of the three symbols before [start - 1]. *)
Theorem minus_guide_location
    (sequence chromosome : str) (start_position : Z) (gene_name : option str)
    (pam_type : str) (guide_length : Z) (apply_filters : bool) (g : Guide) :
  In g (extract_guides sequence chromosome start_position gene_name pam_type
                       guide_length apply_filters) ->
  strand g = lit "-" ->
  3 <= start g - start_position - 1 /\
  end_ g - start_position <= len sequence /\
  GuideM.sequence g
  = reverse_complement
      (slice (upper sequence) (start g - start_position - 1) (end_ g - start_position)) /\
  pam g
  = reverse_complement
      (slice (upper sequence) (start g - start_position - 4) (start g - start_position - 1)).
Proof.
  intros Hg Hs. apply extract_guides_inv in Hg.
  destruct Hg as [[p (_ & _ & _ & _ & _ & Hp)] | [p (Hin & Hw & Hpam & Hst & Hen & _)]].
  - rewrite Hs in Hp. discriminate.
  - apply extract_guide_sequence_plus_inv in Hw. destruct Hw as (Hge & Hw & Hl & _).
    apply find_pam_sites_bounds in Hin.
    rewrite reverse_complement_len, upper_len in Hin.
    rewrite upper_reverse_complement in Hw.
    assert (Hgl : 0 <= guide_length) by (rewrite <- Hl; apply len_nonneg).
    rewrite slice_reverse_complement in Hw, Hpam by (rewrite ?upper_len; lia).
    rewrite upper_len in Hw, Hpam. rewrite Hst, Hen, Hw, Hpam.
    repeat split; try lia; do 2 f_equal; lia.
Qed.

Lemma minus_guide_location_witness :
  3 <= 15 - 1 - 1 /\
  34 - 1 <= len (lit "GGGGGGGGGGCCATTTTTTTTTTTTTTTTTTTT") /\
  lit "AAAAAAAAAAAAAAAAAAAA"
  = reverse_complement
      (slice (upper (lit "GGGGGGGGGGCCATTTTTTTTTTTTTTTTTTTT")) (15 - 1 - 1) (34 - 1)) /\
  lit "TGG"
  = reverse_complement
      (slice (upper (lit "GGGGGGGGGGCCATTTTTTTTTTTTTTTTTTTT")) (15 - 1 - 4) (15 - 1 - 1)).
Proof.
  apply (minus_guide_location
           (lit "GGGGGGGGGGCCATTTTTTTTTTTTTTTTTTTT") (lit "chr1") 1 None (lit "SpCas9") 20 false
           (set_gc_content
              (new_guide (lit "AAAAAAAAAAAAAAAAAAAA") (lit "TGG") (lit "chr1") 15 34 (lit "-"))
              ((inject_Z 0 / inject_Z 20) * 100)%Q)).
  - vm_compute. left. reflexivity.
  - reflexivity.
Defined.

End GuideLocation.

Section FilteredGuides.
Import Py GuideM Extract.

Lemma passes_quality_filters_true (g : Guide) (min_gc max_gc : Q) (max_homopolymer : Z) :
  passes_quality_filters g min_gc max_gc max_homopolymer = true ->
  (min_gc <= gc_content g)%Q /\ (gc_content g <= max_gc)%Q /\
  (forall base, In base bases ->
     contains (mul base max_homopolymer) (sequence g) = false) /\
  contains (lit "TTTT") (sequence g) = false.
Proof.
  unfold passes_quality_filters.
  destruct (Qltb (gc_content g) min_gc) eqn:E1; cbn [orb]; [discriminate|].
  destruct (Qltb max_gc (gc_content g)) eqn:E2; [discriminate|].
  apply Qltb_ge in E1, E2.
  destruct (existsb (fun base => contains (mul base max_homopolymer) (sequence g)) bases)
    eqn:E3; [discriminate|].
  destruct (contains (lit "TTTT") (sequence g)) eqn:E4; [discriminate|].
  intros _. repeat split; try assumption.
  intros base Hb.
  destruct (contains (mul base max_homopolymer) (sequence g)) eqn:E; [|reflexivity].
  assert (Hex : existsb (fun base => contains (mul base max_homopolymer) (sequence g)) bases
                = true)
    by (apply existsb_exists; exists base; split; assumption).
  congruence.
Qed.

(** With the filters on, every emitted guide meets the default quality
    rules: between 40% and 60% of its symbols are G or C (for 20 symbols:
    8 to 12 of them), and no base occurs four times in a row. *)
Theorem filtered_guides_quality
    (sequence chromosome : str) (start_position : Z) (gene_name : option str)
    (pam_type : str) (guide_length : Z) (g : Guide) :
  In g (extract_guides sequence chromosome start_position gene_name pam_type
                       guide_length true) ->
  (40 <= gc_content g <= 60)%Q /\
  (let gc_count := count "G" (GuideM.sequence g) + count "C" (GuideM.sequence g) in
   2 * guide_length <= 5 * gc_count <= 3 * guide_length) /\
  0 < guide_length /\
  (forall base pre post,
     In base ["A"; "T"; "G"; "C"]%char ->
     GuideM.sequence g <> pre ++ repeat base 4 ++ post).
Proof.
  intros Hg.
  pose proof (extract_guides_fields _ _ _ _ _ _ _ _ Hg) as (_ & _ & _ & _ & _ & _ & Hp).
  pose proof (emitted_gc_content _ _ _ _ _ _ _ _ Hg) as (Hsync & _ & Hgc).
  pose proof (extract_guides_inv _ _ _ _ _ _ _ _ Hg) as Hinv.
  assert (Hl : len (GuideM.sequence g) = guide_length).
  { destruct Hinv as [[p (_ & Hw & _)] | [p (_ & Hw & _)]];
      apply extract_guide_sequence_plus_inv in Hw; tauto. }
  apply passes_quality_filters_true in Hp; [|reflexivity].
  destruct Hp as (Hlo & Hhi & Hruns & _).
  assert (Hne : GuideM.sequence g <> []).
  { intros E. unfold calculate_gc_content in Hsync. rewrite E in Hsync.
    injection Hsync as Hs. rewrite <- Hs in Hlo. now apply Hlo. }
  assert (Hpos : 0 < guide_length).
  { rewrite <- Hl. unfold len. destruct (GuideM.sequence g); [congruence|].
    cbn [List.length]. lia. }
  specialize (Hgc Hne). rewrite Hl in Hgc.
  split; [split; assumption|]. split; [|split; [exact Hpos|]].
  - cbv zeta. set (n := count "G" (GuideM.sequence g) + count "C" (GuideM.sequence g)) in *.
    rewrite Hgc in Hlo, Hhi.
    assert (Hlq : (0 < inject_Z guide_length)%Q) by (rewrite <- (Zlt_Qlt 0); exact Hpos).
    assert (E : (inject_Z n / inject_Z guide_length * 100
                 == inject_Z (100 * n) / inject_Z guide_length)%Q).
    { rewrite inject_Z_mult. field. lra. }
    rewrite E in Hlo, Hhi.
    assert (Ec : (inject_Z (100 * n) / inject_Z guide_length * inject_Z guide_length
                  == inject_Z (100 * n))%Q) by (field; lra).
    apply (fun H => Qmult_le_compat_r _ _ (inject_Z guide_length) H (Qlt_le_weak _ _ Hlq))
      in Hlo, Hhi.
    rewrite Ec in Hlo, Hhi.
    change 40%Q with (inject_Z 40) in Hlo. change 60%Q with (inject_Z 60) in Hhi.
    rewrite <- inject_Z_mult, <- Zle_Qle in Hlo, Hhi. lia.
  - intros base pre post Hb E.
    specialize (Hruns base Hb).
    assert (Ht : contains (mul base 4) (GuideM.sequence g) = true)
      by (apply contains_spec; exists pre, post; exact E).
    congruence.
Qed.

Lemma filtered_guides_quality_witness :
  let g := set_gc_content
             (new_guide (lit "ACGTACGTACGTACGTACGT") (lit "AGG") (lit "chr1") 1 20 (lit "+"))
             ((inject_Z 10 / inject_Z 20) * 100)%Q in
  (40 <= gc_content g <= 60)%Q /\
  (let gc_count := count "G" (GuideM.sequence g) + count "C" (GuideM.sequence g) in
   2 * 20 <= 5 * gc_count <= 3 * 20) /\
  0 < 20 /\
  (forall base pre post,
     In base ["A"; "T"; "G"; "C"]%char ->
     GuideM.sequence g <> pre ++ repeat base 4 ++ post).
Proof.
  apply (filtered_guides_quality
           (lit "ACGTACGTACGTACGTACGTAGGCCCGGGAAATTTGGG") (lit "chr1") 1 None
           (lit "SpCas9") 20).
  vm_compute. left. reflexivity.
Defined.

(** For a threshold [max_homopolymer] of at most 4 the separate poly-T
    rule never decides: a guide passes exactly when its GC content is
    within the bounds and no base has a run of [max_homopolymer] or more. *)
Theorem polyT_rule_redundant
    (g : Guide) (min_gc max_gc : Q) (max_homopolymer : Z) :
  max_homopolymer <= 4 ->
  (passes_quality_filters g min_gc max_gc max_homopolymer = true <->
   (min_gc <= gc_content g)%Q /\ (gc_content g <= max_gc)%Q /\
   forall base, In base ["A"; "T"; "G"; "C"]%char ->
     ~ exists (m : nat) pre post,
         max_homopolymer <= Z.of_nat m /\ sequence g = pre ++ repeat base m ++ post).
Proof.
  intros Hmh. split.
  - intros Hp. apply passes_quality_filters_true in Hp.
    destruct Hp as (Hlo & Hhi & Hruns & _). repeat split; try assumption.
    intros base Hb Hrun. apply contains_mul_run in Hrun.
    rewrite (Hruns base Hb) in Hrun. discriminate.
  - intros (Hlo & Hhi & Hruns). unfold passes_quality_filters.
    assert (E1 : Qltb (gc_content g) min_gc = false) by now apply Qltb_ge.
    assert (E2 : Qltb max_gc (gc_content g) = false) by now apply Qltb_ge.
    rewrite E1, E2. cbn [orb].
    assert (Hno : forall base, In base bases ->
                    contains (mul base max_homopolymer) (sequence g) = false).
    { intros base Hb.
      destruct (contains (mul base max_homopolymer) (sequence g)) eqn:E; [|reflexivity].
      apply contains_mul_run in E. exfalso. now apply (Hruns base Hb). }
    assert (E3 : existsb (fun base => contains (mul base max_homopolymer) (sequence g)) bases
                 = false).
    { destruct (existsb _ bases) eqn:E; [|reflexivity].
      apply existsb_exists in E. destruct E as [base [Hb Hc]].
      rewrite (Hno base Hb) in Hc. discriminate. }
    rewrite E3.
    destruct (contains (lit "TTTT") (sequence g)) eqn:E4; [|reflexivity].
    exfalso. apply contains_spec in E4. destruct E4 as [pre [post E4]].
    apply (Hruns "T"%char); [cbn; tauto|].
    exists 4%nat, pre, post. split; [lia | exact E4].
Qed.

Lemma polyT_rule_redundant_witness :
  passes_quality_filters
    (set_gc_content
       (new_guide (lit "GGAAGACTCCAGTGGTAATC") (lit "TGG") (lit "chr17") 100 119 (lit "+")) 50)
    40 60 3 = true <->
  (40 <= 50)%Q /\ (50 <= 60)%Q /\
  forall base, In base ["A"; "T"; "G"; "C"]%char ->
    ~ exists (m : nat) pre post,
        3 <= Z.of_nat m /\ lit "GGAAGACTCCAGTGGTAATC" = pre ++ repeat base m ++ post.
Proof.
  apply (polyT_rule_redundant
           (set_gc_content
              (new_guide (lit "GGAAGACTCCAGTGGTAATC") (lit "TGG") (lit "chr17") 100 119
                         (lit "+")) 50)
           40 60 3).
  lia.
Defined.

End FilteredGuides.

Section GuideOrder.
Import Py GuideM Extract.

Lemma flat_map_sorted {A B : Type} (R : A -> A -> Prop) (S : B -> B -> Prop)
      (h : A -> list B) (xs : list A) :
  (forall x, (List.length (h x) <= 1)%nat) ->
  (forall x y a b, R x y -> In a (h x) -> In b (h y) -> S a b) ->
  StronglySorted R xs -> StronglySorted S (flat_map h xs).
Proof.
  intros Hlen HRS Hs. induction Hs as [|x xs Hs IH Hx]; cbn [flat_map]; [constructor|].
  pose proof (Hlen x) as Hl.
  destruct (h x) as [|a [|a' l]] eqn:E; cbn [List.length] in Hl; [exact IH | | lia].
  cbn [app]. constructor; [exact IH|].
  apply List.Forall_forall. intros b Hb.
  apply in_flat_map in Hb. destruct Hb as [y [Hy Hb]].
  apply (HRS x y); [|rewrite E; now left | exact Hb].
  rewrite List.Forall_forall in Hx. now apply Hx.
Qed.

Lemma finish_guide_length gene_name apply_filters guide :
  (List.length (finish_guide gene_name apply_filters [] guide) <= 1)%nat.
Proof.
  unfold finish_guide.
  destruct apply_filters; [destruct (passes_quality_filters _ 40 60 4)|];
    cbn [app List.length]; lia.
Qed.

(** The order of the result: first the plus-strand guides, by increasing
    start, then the minus-strand guides, by decreasing start; two guides
    of one strand start at least three positions apart. *)
Theorem extract_guides_order
    (sequence chromosome : str) (start_position : Z) (gene_name : option str)
    (pam_type : str) (guide_length : Z) (apply_filters : bool) :
  exists plus minus,
    extract_guides sequence chromosome start_position gene_name pam_type
                   guide_length apply_filters = plus ++ minus /\
    Forall (fun g => strand g = lit "+") plus /\
    Forall (fun g => strand g = lit "-") minus /\
    StronglySorted (fun a b => start a + 3 <= start b) plus /\
    StronglySorted (fun a b => start b + 3 <= start a) minus.
Proof.
  rewrite extract_guides_flat.
  eexists. eexists. split; [reflexivity|].
  split; [|split; [|split]].
  - apply List.Forall_forall. intros g Hg. apply in_flat_map in Hg.
    destruct Hg as [p [_ Hg]]. apply plus_body_inv in Hg.
    destruct Hg as [[] | H]. tauto.
  - apply List.Forall_forall. intros g Hg. apply in_flat_map in Hg.
    destruct Hg as [p [_ Hg]]. apply minus_body_inv in Hg.
    destruct Hg as [[] | H]. tauto.
  - apply (flat_map_sorted (fun a b => a + 3 <= b)).
    + intros p. unfold plus_body.
      destruct (extract_guide_sequence (upper sequence) p guide_length (lit "+"));
        [apply finish_guide_length | cbn; lia].
    + intros x y a b Hxy Ha Hb. apply plus_body_inv in Ha, Hb.
      destruct Ha as [[] | (_ & _ & Ha & _)], Hb as [[] | (_ & _ & Hb & _)]. lia.
    + unfold find_pam_sites.
      destruct (str_eqb pam_type (lit "SpCas9")); [apply finditer_NGG_spaced | constructor].
  - apply (flat_map_sorted (fun a b => a + 3 <= b)).
    + intros p. unfold minus_body.
      destruct (extract_guide_sequence (reverse_complement (upper sequence)) p
                                       guide_length (lit "+"));
        [apply finish_guide_length | cbn; lia].
    + intros x y a b Hxy Ha Hb. apply minus_body_inv in Ha, Hb.
      destruct Ha as [[] | (_ & _ & Ha & _)], Hb as [[] | (_ & _ & Hb & _)]. lia.
    + unfold find_pam_sites.
      destruct (str_eqb pam_type (lit "SpCas9")); [apply finditer_NGG_spaced | constructor].
Qed.

(** The minus-strand branch of [extract_guide_sequence] and the way
    [extract_guides] handles the minus strand agree: the window after a
    PAM at [p], reverse complemented, is the plus-strand window of the
    reverse complement before the mirrored position [len - p - 3]. *)
Theorem minus_branch_agrees (sequence : str) (p guide_length : Z) :
  0 <= p -> p + 3 <= len sequence -> 0 <= guide_length ->
  extract_guide_sequence sequence p guide_length (lit "-")
  = extract_guide_sequence (reverse_complement (upper sequence))
                           (len sequence - p - 3) guide_length (lit "+").
Proof.
  intros Hp Hp3 Hgl. unfold extract_guide_sequence.
  change (str_eqb (lit "-") (lit "+")) with false. rewrite str_eqb_refl.
  rewrite upper_reverse_complement, upper_len. cbv zeta.
  destruct (Z.ltb_spec (len sequence) (p + 3 + guide_length)) as [Hshort | Hfit].
  - destruct (Z.ltb_spec (len sequence - p - 3 - guide_length) 0); [reflexivity | lia].
  - destruct (Z.ltb_spec (len sequence - p - 3 - guide_length) 0); [lia|].
    rewrite slice_reverse_complement by (rewrite ?upper_len; lia).
    rewrite upper_len.
    replace (len sequence - (len sequence - p - 3)) with (p + 3) by lia.
    replace (len sequence - (len sequence - p - 3 - guide_length))
      with (p + 3 + guide_length) by lia.
    reflexivity.
Qed.

Lemma minus_branch_agrees_witness :
  extract_guide_sequence (lit "CCAACGTACGTACGTACGTACGT") 0 20 (lit "-")
  = extract_guide_sequence (reverse_complement (upper (lit "CCAACGTACGTACGTACGTACGT")))
                           (len (lit "CCAACGTACGTACGTACGTACGT") - 0 - 3) 20 (lit "+").
Proof.
  apply (minus_branch_agrees (lit "CCAACGTACGTACGTACGTACGT") 0 20).
  - lia.
  - vm_compute. discriminate.
  - lia.
Defined.

End GuideOrder.

(* ===================================================================== *)
(** * More on the efficiency estimator *)
(* ===================================================================== *)

Section PredictRange.
Import Py GuideM Predict.
Local Open Scope Q_scope.

Lemma round_half_even_ge (x : Q) (n : Z) : inject_Z n <= x -> (n <= round_half_even x)%Z.
Proof.
  intros H. unfold round_half_even.
  assert (Hf : (n <= Qfloor x)%Z).
  { rewrite <- (Qfloor_Z n). now apply Qfloor_resp_le. }
  destruct (x - inject_Z (Qfloor x) ?= 1 # 2); [destruct (Z.even (Qfloor x))| |]; lia.
Qed.

Lemma round_half_even_le (x : Q) (n : Z) : x <= inject_Z n -> (round_half_even x <= n)%Z.
Proof.
  intros H. unfold round_half_even.
  assert (Hf : (Qfloor x <= n)%Z).
  { rewrite <- (Qfloor_Z n). now apply Qfloor_resp_le. }
  destruct (Z.eq_dec (Qfloor x) n) as [E | Hne].
  - assert (Hfrac : x - inject_Z (Qfloor x) < 1 # 2).
    { rewrite E. lra. }
    destruct (Qcompare_spec (x - inject_Z (Qfloor x)) (1 # 2)) as [Hc | Hc | Hc];
      [lra | lia | lra].
  - destruct (x - inject_Z (Qfloor x) ?= 1 # 2); [destruct (Z.even (Qfloor x))| |]; lia.
Qed.

Lemma round1_range (x : Q) (lo hi : Z) :
  inject_Z lo <= x -> x <= inject_Z hi ->
  inject_Z lo <= round1 x /\ round1 x <= inject_Z hi.
Proof.
  intros Hlo Hhi. unfold round1.
  assert (H1 : (lo * 10 <= round_half_even (x * 10))%Z).
  { apply round_half_even_ge. rewrite inject_Z_mult. change (inject_Z 10) with 10. lra. }
  assert (H2 : (round_half_even (x * 10) <= hi * 10)%Z).
  { apply round_half_even_le. rewrite inject_Z_mult. change (inject_Z 10) with 10. lra. }
  rewrite Zle_Qle, inject_Z_mult in H1, H2. change (inject_Z 10) with 10 in H1, H2.
  split.
  - apply Qle_shift_div_l; [reflexivity | exact H1].
  - apply Qle_shift_div_r; [reflexivity | exact H2].
Qed.

Lemma clamp_range (x : Q) : 0 <= max 0 (min 100 x) /\ max 0 (min 100 x) <= 100.
Proof.
  unfold max, min.
  destruct (Qltb x 100) eqn:E1.
  - apply Qltb_lt in E1. destruct (Qltb 0 x) eqn:E2.
    + apply Qltb_lt in E2. lra.
    + lra.
  - destruct (Qltb 0 100) eqn:E2; lra.
Qed.

Lemma clamp_le (x b : Q) : 0 <= b -> x <= b -> max 0 (min 100 x) <= b.
Proof.
  intros Hb Hx. unfold max, min.
  destruct (Qltb x 100) eqn:E1.
  - destruct (Qltb 0 x) eqn:E2; lra.
  - apply Qltb_ge in E1. destruct (Qltb 0 100) eqn:E2; lra.
Qed.

Lemma slice_to_len_min (s : str) (n : Z) :
  (0 <= n)%Z -> len (slice_to s n) = Z.min n (len s).
Proof.
  intros Hn. unfold slice_to, slice, norm_bound, len.
  destruct (Z.ltb_spec 0 0); [lia|]. destruct (Z.ltb_spec n 0); [lia|].
  rewrite List.length_firstn, List.length_skipn. lia.
Qed.

Lemma slice_from_neg_len_min (s : str) (n : Z) :
  (0 < n)%Z -> len (slice_from s (- n)) = Z.min n (len s).
Proof.
  intros Hn. unfold slice_from, slice, norm_bound, len.
  destruct (Z.ltb_spec (- n) 0); [|lia].
  destruct (Z.ltb_spec (Z.of_nat (List.length s)) 0); [lia|].
  rewrite List.length_firstn, List.length_skipn. lia.
Qed.

Lemma index_out_of_range (s : str) (i : Z) :
  (0 <= i)%Z -> (len s <= i)%Z -> index s i = Raise IndexError.
Proof.
  intros H0 Hi. unfold index.
  assert (E0 : (i <? 0)%Z = false) by (apply Z.ltb_ge; lia).
  assert (E1 : (len s <=? i)%Z = true) by (apply Z.leb_le; lia).
  rewrite E0. cbv zeta. now rewrite E0, E1.
Qed.

Lemma raw_score_long (g : Guide) :
  (20 <= len (sequence g))%Z -> exists q, raw_score g = Ok q.
Proof.
  intros Hlen. unfold raw_score.
  destruct (score_position_ok (sequence g)) as [q1 E1]; [lia|].
  destruct (score_seed_ok (slice_to (sequence g) 12)) as [q2 E2];
    [rewrite slice_to_len_min; lia|].
  destruct (score_pam_proximal_ok (slice_from (sequence g) (-8))) as [q3 E3];
    [rewrite (slice_from_neg_len_min _ 8); lia|].
  destruct (index_in_range (sequence g) 19) as [c19 E19]; [lia | lia |].
  rewrite E1. cbn [bind]. rewrite E2. cbn [bind]. rewrite E3. cbn [bind].
  rewrite E19. cbn [bind]. eauto.
Qed.

Lemma raw_score_short (g : Guide) :
  (len (sequence g) < 20)%Z -> raw_score g = Raise IndexError.
Proof.
  intros Hlen. unfold raw_score.
  destruct (Z.eq_dec (len (sequence g)) 0%Z) as [Hz | Hnz].
  - unfold _score_position_preferences.
    destruct (Z.leb_spec 20%Z (len (sequence g))); [lia|]. cbn [bind].
    rewrite index_out_of_range by lia. reflexivity.
  - pose proof (len_nonneg (sequence g)).
    destruct (score_position_ok (sequence g)) as [q1 E1]; [lia|].
    destruct (score_seed_ok (slice_to (sequence g) 12)) as [q2 E2];
      [rewrite slice_to_len_min; lia|].
    destruct (score_pam_proximal_ok (slice_from (sequence g) (-8))) as [q3 E3];
      [rewrite (slice_from_neg_len_min _ 8); lia|].
    rewrite E1. cbn [bind]. rewrite E2. cbn [bind]. rewrite E3. cbn [bind].
    rewrite index_out_of_range by lia. reflexivity.
Qed.

(** [predict_efficiency] raises exactly on sequences of fewer than 20
    symbols, and then an IndexError; on every longer sequence it returns a
    score. It never divides by zero. *)
Theorem predict_efficiency_raises_iff_short (g : Guide) :
  (predict_efficiency g = Raise IndexError <-> (len (sequence g) < 20)%Z) /\
  ((exists score, predict_efficiency g = Ok score) <-> (20 <= len (sequence g))%Z) /\
  predict_efficiency g <> Raise ZeroDivisionError.
Proof.
  unfold predict_efficiency.
  destruct (Z.lt_ge_cases (len (sequence g)) 20%Z) as [Hs | Hl].
  - rewrite (raw_score_short g Hs). cbn [bind].
    split; [tauto|]. split; [|discriminate].
    split; [intros [s Hsc]; discriminate | lia].
  - destruct (raw_score_long g Hl) as [q E]. rewrite E. cbn [bind].
    split; [split; [discriminate | lia]|]. split; [|discriminate].
    split; [intros _; exact Hl | eauto].
Qed.

(** Every score that [predict_efficiency] returns lies in [0, 100]. *)
Theorem predict_efficiency_range (g : Guide) (score : Q) :
  predict_efficiency g = Ok score -> 0 <= score /\ score <= 100.
Proof.
  unfold predict_efficiency. destruct (raw_score g) as [q|e]; cbn [bind]; [|discriminate].
  intros [= <-]. pose proof (clamp_range q) as [H0 H100].
  apply (round1_range _ 0 100); assumption.
Qed.

Lemma predict_efficiency_range_witness :
  0 <= 670 # 10 /\ 670 # 10 <= 100.
Proof.
  apply (predict_efficiency_range
           (set_gc_content
              (new_guide (lit "ACGTACGTACGTACGTACGA") (lit "TGG") (lit "chr1") 1 20 (lit "+"))
              50)).
  vm_compute. reflexivity.
Defined.

(** On a 20-symbol sequence the score is at most 72.0, whatever GC content
    is stored: the terms of the model add up to at most 50 + 10 + 5 + 3 + 2
    + 0 + 2, so the upper clamp at 100 is never reached. *)
Theorem predict_efficiency_at_most_72 (g : Guide) (score : Q) :
  len (sequence g) = 20%Z -> predict_efficiency g = Ok score -> score <= 72.
Proof.
  intros Hlen. unfold predict_efficiency.
  destruct (raw_score g) as [q|e] eqn:Er; cbn [bind]; [|discriminate].
  intros [= <-].
  assert (Hne : sequence g <> []) by (intros E; rewrite E in Hlen; discriminate).
  pose proof (app_removelast_last "A"%char Hne) as Hsplit.
  assert (Hp : List.length (removelast (sequence g)) = 19%nat).
  { apply (f_equal (@List.length ascii)) in Hsplit.
    rewrite List.length_app in Hsplit. cbn [List.length] in Hsplit.
    unfold len in Hlen. lia. }
  pose proof (raw_score_le_72 g _ _ q Hp Hsplit Er) as Hq.
  apply (round1_range _ 0 72).
  - apply clamp_range.
  - apply clamp_le; [discriminate | exact Hq].
Qed.

Lemma predict_efficiency_at_most_72_witness : 710 # 10 <= 72.
Proof.
  apply (predict_efficiency_at_most_72
           (set_gc_content
              (new_guide (lit "ACGTACGTACGTACGTACGG") (lit "TGG") (lit "chr1") 1 20 (lit "+"))
              50)).
  - reflexivity.
  - vm_compute. reflexivity.
Defined.

End PredictRange.

Section PredictBatch.
Import Py GuideM Extract Predict.

Lemma emitted_sequence_len sequence chromosome start_position gene_name pam_type
      guide_length apply_filters g :
  In g (extract_guides sequence chromosome start_position gene_name pam_type
                       guide_length apply_filters) ->
  len (GuideM.sequence g) = guide_length.
Proof.
  intros Hg. apply extract_guides_inv in Hg.
  destruct Hg as [[p (_ & Hw & _)] | [p (_ & Hw & _)]];
    apply extract_guide_sequence_plus_inv in Hw; tauto.
Qed.

Lemma predict_efficiency_long (g : Guide) :
  20 <= len (GuideM.sequence g) -> exists s, predict_efficiency g = Ok s.
Proof.
  intros Hl. destruct (raw_score_long g Hl) as [q E].
  unfold predict_efficiency. rewrite E. cbn [bind]. eauto.
Qed.

Lemma predict_efficiency_short (g : Guide) :
  len (GuideM.sequence g) < 20 -> predict_efficiency g = Raise IndexError.
Proof.
  intros Hs. unfold predict_efficiency. now rewrite (raw_score_short g Hs).
Qed.

Lemma predict_batch_ok (guides : list Guide) :
  Forall (fun g => 20 <= len (GuideM.sequence g)) guides ->
  exists scored, predict_batch guides = Ok scored.
Proof.
  induction 1 as [|g guides Hg _ IH]; cbn [predict_batch]; [eauto|].
  destruct (predict_efficiency_long g Hg) as [s Es].
  destruct IH as [rest Er]. rewrite Es, Er. cbn [bind]. eauto.
Qed.

Lemma predict_batch_scored (guides scored : list Guide) :
  predict_batch guides = Ok scored ->
  Forall2 (fun g g' => exists s, predict_efficiency g = Ok s /\
                                 g' = set_efficiency_score g s) guides scored.
Proof.
  revert scored. induction guides as [|g guides IH]; intros scored; cbn [predict_batch].
  - intros [= <-]. constructor.
  - destruct (predict_efficiency g) as [s|e] eqn:Es; cbn [bind]; [|discriminate].
    destruct (predict_batch guides) as [rest|e] eqn:Er; cbn [bind]; [|discriminate].
    intros [= <-]. constructor; [eauto | now apply IH].
Qed.

(** [predict_batch] succeeds exactly when every guide has at least 20
    symbols; it then returns the guides in the same order, each changed
    only in its [efficiency_score], which is the value of
    [predict_efficiency] and lies in [0, 100]. A shorter guide makes the
    whole batch raise IndexError. *)
Theorem predict_batch_succeeds_iff (guides : list Guide) :
  ((exists scored, predict_batch guides = Ok scored) <->
   Forall (fun g => 20 <= len (GuideM.sequence g)) guides) /\
  (Exists (fun g => len (GuideM.sequence g) < 20) guides ->
   predict_batch guides = Raise IndexError) /\
  (forall scored, predict_batch guides = Ok scored ->
     Forall2 (fun g g' =>
                g' = set_efficiency_score g (efficiency_score g') /\
                predict_efficiency g = Ok (efficiency_score g') /\
                (0 <= efficiency_score g' <= 100)%Q) guides scored).
Proof.
  split; [split|split].
  - intros [scored E]. apply predict_batch_scored in E.
    induction E as [|g g' guides scored [s [Es _]] _ IH]; constructor; [|exact IH].
    destruct (Z.lt_ge_cases (len (GuideM.sequence g)) 20) as [Hs | Hl]; [|exact Hl].
    rewrite (predict_efficiency_short g Hs) in Es. discriminate.
  - apply predict_batch_ok.
  - induction guides as [|g guides IH]; intros Hex; [inversion Hex|].
    cbn [predict_batch].
    destruct (Z.lt_ge_cases (len (GuideM.sequence g)) 20) as [Hs | Hl].
    + now rewrite (predict_efficiency_short g Hs).
    + destruct (predict_efficiency_long g Hl) as [s Es]. rewrite Es. cbn [bind].
      inversion Hex as [? ? Hh | ? ? Ht]; subst; [lia|].
      now rewrite (IH Ht).
  - intros scored E. apply predict_batch_scored in E.
    eapply Forall2_impl; [exact E|].
    intros g g' [s [Es ->]]. cbn [efficiency_score set_efficiency_score].
    split; [reflexivity|]. split; [exact Es|].
    unfold predict_efficiency in Es.
    destruct (raw_score g) as [q|e]; cbn [bind] in Es; [|discriminate].
    injection Es as <-. pose proof (clamp_range q) as [H0 H100].
    apply (round1_range _ 0 100); assumption.
Qed.

(** The scan feeds the estimator safely: with a guide length of at least
    20 (the default is 20), [predict_batch] on the result of
    [extract_guides] returns a scored list of the same length. *)
Theorem predict_batch_after_extract
    (sequence chromosome : str) (start_position : Z) (gene_name : option str)
    (pam_type : str) (guide_length : Z) (apply_filters : bool) :
  20 <= guide_length ->
  exists scored,
    predict_batch (extract_guides sequence chromosome start_position gene_name pam_type
                                  guide_length apply_filters) = Ok scored /\
    List.length scored
    = List.length (extract_guides sequence chromosome start_position gene_name pam_type
                                  guide_length apply_filters).
Proof.
  intros Hgl.
  destruct (predict_batch_ok
              (extract_guides sequence chromosome start_position gene_name pam_type
                              guide_length apply_filters)) as [scored E].
  - apply List.Forall_forall. intros g Hg.
    now rewrite (emitted_sequence_len _ _ _ _ _ _ _ _ Hg).
  - exists scored. split; [exact E|].
    apply predict_batch_scored in E. symmetry. eapply Forall2_length. exact E.
Qed.

Lemma predict_batch_after_extract_witness :
  exists scored,
    predict_batch (extract_guides (lit "ACGTACGTACGTACGTACGTAGGCCCGGGAAATTTGGG") (lit "chr1")
                                  1 None (lit "SpCas9") 20 true) = Ok scored /\
    List.length scored
    = List.length (extract_guides (lit "ACGTACGTACGTACGTACGTAGGCCCGGGAAATTTGGG") (lit "chr1")
                                  1 None (lit "SpCas9") 20 true).
Proof.
  apply (predict_batch_after_extract
           (lit "ACGTACGTACGTACGTACGTAGGCCCGGGAAATTTGGG") (lit "chr1") 1 None
           (lit "SpCas9") 20 true).
  lia.
Defined.

End PredictBatch.

(* ===================================================================== *)
(** * More on the off-target estimator *)
(* ===================================================================== *)

Section Mismatches.
Import Py GuideM OffTarget.

Lemma fold_add_shift (xs : list Z) (a : Z) :
  fold_left Z.add xs a = a + fold_left Z.add xs 0.
Proof.
  revert a. induction xs as [|x xs IH]; intros a; cbn [fold_left]; [lia|].
  rewrite (IH (a + x)), (IH (0 + x)). lia.
Qed.

Lemma sum_cons (x : Z) (xs : list Z) : sum (x :: xs) = x + sum xs.
Proof.
  unfold sum. cbn [fold_left]. rewrite fold_add_shift. lia.
Qed.

Lemma len_cons (c : ascii) (s : str) : len (c :: s) = 1 + len s.
Proof. unfold len. cbn [List.length]. lia. Qed.

Lemma count_mismatches_nil : count_mismatches [] [] = 0.
Proof. reflexivity. Qed.

Lemma count_mismatches_cons (c1 c2 : ascii) (s1 s2 : str) :
  len s1 = len s2 ->
  count_mismatches (c1 :: s1) (c2 :: s2)
  = (if Ascii.eqb c1 c2 then 0 else 1) + count_mismatches s1 s2.
Proof.
  intros Hl. unfold count_mismatches. rewrite !len_cons, Hl, !Z.eqb_refl.
  cbn [negb combine map fst snd]. now rewrite sum_cons.
Qed.

Lemma count_mismatches_unequal (s1 s2 : str) :
  len s1 <> len s2 -> count_mismatches s1 s2 = len s1.
Proof.
  intros Hl. unfold count_mismatches.
  destruct (Z.eqb_spec (len s1) (len s2)); [contradiction | reflexivity].
Qed.

Lemma count_mismatches_bounds (s1 : str) :
  forall s2, len s1 = len s2 -> 0 <= count_mismatches s1 s2 <= len s1.
Proof.
  induction s1 as [|c1 s1 IH]; intros [|c2 s2] Hl;
    rewrite ?len_cons in Hl; try (unfold len in Hl; cbn [List.length] in Hl; lia).
  - rewrite count_mismatches_nil. unfold len. cbn. lia.
  - assert (Hl' : len s1 = len s2) by lia.
    rewrite (count_mismatches_cons _ _ _ _ Hl'), len_cons.
    specialize (IH s2 Hl'). destruct (Ascii.eqb c1 c2); lia.
Qed.

Lemma count_mismatches_eq_zero (s1 : str) :
  forall s2, len s1 = len s2 -> (count_mismatches s1 s2 = 0 <-> s1 = s2).
Proof.
  induction s1 as [|c1 s1 IH]; intros [|c2 s2] Hl;
    rewrite ?len_cons in Hl; try (unfold len in Hl; cbn [List.length] in Hl; lia).
  - rewrite count_mismatches_nil. tauto.
  - assert (Hl' : len s1 = len s2) by lia.
    rewrite (count_mismatches_cons _ _ _ _ Hl').
    pose proof (count_mismatches_bounds s1 s2 Hl') as Hb.
    specialize (IH s2 Hl').
    destruct (Ascii.eqb_spec c1 c2) as [->|Hne].
    + rewrite Z.add_0_l, IH. split; [intros ->; reflexivity | intros [= ->]; reflexivity].
    + split; [lia | intros [= E _]; contradiction].
Qed.

(** On sequences of equal length [count_mismatches] is the Hamming
    distance: it lies between 0 and the length, is 0 exactly for equal
    sequences, is symmetric and obeys the triangle inequality. *)
Theorem count_mismatches_metric (s1 s2 s3 : str) :
  len s1 = len s2 -> len s2 = len s3 ->
  0 <= count_mismatches s1 s2 <= len s1 /\
  (count_mismatches s1 s2 = 0 <-> s1 = s2) /\
  count_mismatches s1 s2 = count_mismatches s2 s1 /\
  count_mismatches s1 s3 <= count_mismatches s1 s2 + count_mismatches s2 s3.
Proof.
  intros H12 H23.
  split; [now apply count_mismatches_bounds|].
  split; [now apply count_mismatches_eq_zero|].
  split.
  - clear s3 H23. revert s2 H12.
    induction s1 as [|c1 s1 IH]; intros [|c2 s2] Hl;
      rewrite ?len_cons in Hl; try (unfold len in Hl; cbn [List.length] in Hl; lia).
    assert (Hl' : len s1 = len s2) by lia.
    rewrite (count_mismatches_cons _ _ _ _ Hl'),
            (count_mismatches_cons _ _ _ _ (eq_sym Hl')), (IH s2 Hl').
    now rewrite (Ascii.eqb_sym c1 c2).
  - revert s2 s3 H12 H23.
    induction s1 as [|c1 s1 IH]; intros [|c2 s2] [|c3 s3] H12 H23;
      rewrite ?len_cons in H12, H23;
      try (unfold len in H12, H23; cbn [List.length] in H12, H23; lia).
    + rewrite count_mismatches_nil. lia.
    + assert (H12' : len s1 = len s2) by lia.
      assert (H23' : len s2 = len s3) by lia.
      assert (H13' : len s1 = len s3) by lia.
      rewrite (count_mismatches_cons _ _ _ _ H12'), (count_mismatches_cons _ _ _ _ H23'),
              (count_mismatches_cons _ _ _ _ H13').
      specialize (IH s2 s3 H12' H23').
      destruct (Ascii.eqb_spec c1 c2) as [E12|N12], (Ascii.eqb_spec c2 c3) as [E23|N23],
               (Ascii.eqb_spec c1 c3) as [E13|N13]; try lia; congruence.
Qed.

Lemma count_mismatches_metric_witness :
  0 <= count_mismatches (lit "ACGT") (lit "ACGA") <= len (lit "ACGT") /\
  (count_mismatches (lit "ACGT") (lit "ACGA") = 0 <-> lit "ACGT" = lit "ACGA") /\
  count_mismatches (lit "ACGT") (lit "ACGA") = count_mismatches (lit "ACGA") (lit "ACGT") /\
  count_mismatches (lit "ACGT") (lit "TCGA")
  <= count_mismatches (lit "ACGT") (lit "ACGA") + count_mismatches (lit "ACGA") (lit "TCGA").
Proof.
  apply (count_mismatches_metric (lit "ACGT") (lit "ACGA") (lit "TCGA")); reflexivity.
Defined.

(** When the lengths differ, [count_mismatches] returns the length of the
    first sequence; so the result is 0 exactly when the sequences are equal
    or the first one is empty: an empty first sequence matches anything. *)
Theorem count_mismatches_zero_iff (s1 s2 : str) :
  count_mismatches s1 s2 = 0 <-> s1 = s2 \/ s1 = [].
Proof.
  destruct (Z.eq_dec (len s1) (len s2)) as [Hl | Hl].
  - rewrite (count_mismatches_eq_zero s1 s2 Hl). split; [tauto|].
    intros [E | ->]; [exact E|].
    destruct s2; [reflexivity | unfold len in Hl; cbn [List.length] in Hl; lia].
  - rewrite (count_mismatches_unequal s1 s2 Hl). split.
    + intros H0. right. destruct s1; [reflexivity|].
      unfold len in H0. cbn [List.length] in H0. lia.
    + intros [-> | ->]; [contradiction | reflexivity].
Qed.

End Mismatches.

Section EstimatorFacts.
Import Py GuideM OffTarget.

Lemma int_midpoint (k n : Z) :
  int (inject_Z k / 2 + inject_Z n)%Q = Z.quot (k + 2 * n) 2.
Proof.
  unfold int, Qdiv, Qmult, Qplus, Qinv, inject_Z. cbn.
  f_equal. lia.
Qed.

Lemma complexity_raises (s : str) :
  len s = 0 \/ len s = 3 -> _calculate_complexity s = Raise ZeroDivisionError.
Proof.
  intros [H | H]; unfold _calculate_complexity, truediv; rewrite H; cbn; [|reflexivity].
  now destruct (Z.of_nat (size (kmers_of s 4)) # 1)%Q.
Qed.

Lemma estimate_in_range (lo hi n : Z) :
  -2 <= n <= 2 ->
  In (lo, hi) [(5, 15); (20, 50); (80, 200); (1, 5); (5, 20); (20, 80);
               (0, 3); (2, 10); (10, 40)] ->
  lo <= int (inject_Z (lo + hi) / 2 + inject_Z n)%Q <= hi.
Proof.
  intros Hn Hin. rewrite int_midpoint.
  assert (En : n = -2 \/ n = -1 \/ n = 0 \/ n = 1 \/ n = 2) by lia.
  cbn [In] in Hin.
  repeat (destruct Hin as [[= <- <-] | Hin];
          [destruct En as [-> | [-> | [-> | [-> | ->]]]];
           split; apply Z.leb_le; reflexivity|]).
  contradiction.
Qed.

Lemma search_off_targets_ok {RNG : Type} (randint : randint_t RNG) (guide : Guide) (st : RNG) :
  len (sequence guide) <> 0 -> len (sequence guide) <> 3 ->
  exists m st', search_off_targets randint guide st = Ok (m, st').
Proof.
  intros H0 H3. destruct (calculate_complexity_ok _ H0 H3) as [c Ec].
  unfold search_off_targets. rewrite Ec. cbn [bind].
  destruct (Qltb c (5 # 10)); [|destruct (Qltb c (7 # 10))];
    match goal with |- context [estimate3 ?r ?m0 ?r1 ?r2 ?r3 ?s] =>
      destruct (estimate3 r m0 r1 r2 r3 s) as [m st'] end; eauto.
Qed.

Lemma search_off_targets_raises {RNG : Type} (randint : randint_t RNG)
      (guide : Guide) (st : RNG) :
  len (sequence guide) = 0 \/ len (sequence guide) = 3 ->
  search_off_targets randint guide st = Raise ZeroDivisionError.
Proof.
  intros H. unfold search_off_targets. now rewrite (complexity_raises _ H).
Qed.

(** [search_off_targets] raises exactly on sequences of 0 or 3 symbols,
    where the complexity score divides by zero; on every other sequence
    it returns a mapping, whatever the generator. *)
Theorem search_off_targets_raises_iff
    {RNG : Type} (randint : randint_t RNG) (guide : Guide) (st : RNG) :
  (search_off_targets randint guide st = Raise ZeroDivisionError <->
   len (sequence guide) = 0 \/ len (sequence guide) = 3) /\
  ((exists m st', search_off_targets randint guide st = Ok (m, st')) <->
   len (sequence guide) <> 0 /\ len (sequence guide) <> 3).
Proof.
  destruct (Z.eq_dec (len (sequence guide)) 0) as [H0 | H0];
    [|destruct (Z.eq_dec (len (sequence guide)) 3) as [H3 | H3]].
  - rewrite (search_off_targets_raises randint guide st (or_introl H0)).
    split; [tauto|]. split; [intros (m & st' & E); discriminate | tauto].
  - rewrite (search_off_targets_raises randint guide st (or_intror H3)).
    split; [tauto|]. split; [intros (m & st' & E); discriminate | tauto].
  - destruct (search_off_targets_ok randint guide st H0 H3) as (m & st' & E).
    rewrite E. split; [split; [discriminate | tauto]|].
    split; [tauto | eauto].
Qed.

(** Every estimated count lies in the range declared for its bucket and
    mismatch level, hence is not negative, and the counts grow strictly
    with the number of mismatches. *)
Theorem estimated_counts_in_range
    {RNG : Type} (randint : randint_t RNG) (guide : Guide) (st st' : RNG) (m : gmap Z Z) :
  (forall s, -2 <= fst (randint (-2) 2 s) <= 2) ->
  search_off_targets randint guide st = Ok (m, st') ->
  exists complexity v1 v2 v3,
    _calculate_complexity (sequence guide) = Ok complexity /\
    m !! 1 = Some v1 /\ m !! 2 = Some v2 /\ m !! 3 = Some v3 /\
    ((complexity < 5 # 10)%Q ->
     5 <= v1 <= 15 /\ 20 <= v2 <= 50 /\ 80 <= v3 <= 200) /\
    ((5 # 10 <= complexity)%Q -> (complexity < 7 # 10)%Q ->
     1 <= v1 <= 5 /\ 5 <= v2 <= 20 /\ 20 <= v3 <= 80) /\
    ((7 # 10 <= complexity)%Q ->
     0 <= v1 <= 3 /\ 2 <= v2 <= 10 /\ 10 <= v3 <= 40) /\
    0 <= v1 /\ v1 < v2 /\ v2 < v3.
Proof.
  intros Hrange E. unfold search_off_targets in E.
  destruct (_calculate_complexity (sequence guide)) as [c|e]; cbn [bind] in E;
    [|discriminate].
  exists c.
  pose proof (draws3_range randint st Hrange) as Hdraws.
  destruct (Qltb c (5 # 10)) eqn:E5; [|destruct (Qltb c (7 # 10)) eqn:E7];
    injection E as E;
    match type of E with estimate3 ?r ?m0 ?r1 ?r2 ?r3 ?s = _ =>
      pose proof (branch_shape r m0 r1 r2 r3 s eq_refl) as (_ & _ & Hc);
      rewrite E in Hc; cbn [fst] in Hc end;
    unfold counts_from in Hc;
    destruct (draws3 randint st) as [[n1 n2] n3];
    destruct Hdraws as (Hn1 & Hn2 & Hn3); destruct Hc as (H1 & H2 & H3);
    cbn [fst snd] in H1, H2, H3;
    do 3 eexists; (split; [reflexivity|]);
    (split; [exact H1|]); (split; [exact H2|]); (split; [exact H3|]).
  - apply Qltb_lt in E5.
    assert (B2 : ~ (5 # 10 <= c)%Q) by lra. assert (B3 : ~ (7 # 10 <= c)%Q) by lra.
    pose proof (estimate_in_range 5 15 n1 Hn1 ltac:(cbn; tauto)).
    pose proof (estimate_in_range 20 50 n2 Hn2 ltac:(cbn; tauto)).
    pose proof (estimate_in_range 80 200 n3 Hn3 ltac:(cbn; tauto)).
    repeat split; intros; try lia; contradiction.
  - apply Qltb_ge in E5. apply Qltb_lt in E7.
    assert (B1 : ~ (c < 5 # 10)%Q) by lra. assert (B3 : ~ (7 # 10 <= c)%Q) by lra.
    pose proof (estimate_in_range 1 5 n1 Hn1 ltac:(cbn; tauto)).
    pose proof (estimate_in_range 5 20 n2 Hn2 ltac:(cbn; tauto)).
    pose proof (estimate_in_range 20 80 n3 Hn3 ltac:(cbn; tauto)).
    assert (10 <= int (inject_Z (5 + 20) / 2 + inject_Z n2)%Q).
    { rewrite int_midpoint.
      assert (En : n2 = -2 \/ n2 = -1 \/ n2 = 0 \/ n2 = 1 \/ n2 = 2) by lia.
      destruct En as [-> | [-> | [-> | [-> | ->]]]]; apply Z.leb_le; reflexivity. }
    assert (48 <= int (inject_Z (20 + 80) / 2 + inject_Z n3)%Q).
    { rewrite int_midpoint.
      assert (En : n3 = -2 \/ n3 = -1 \/ n3 = 0 \/ n3 = 1 \/ n3 = 2) by lia.
      destruct En as [-> | [-> | [-> | [-> | ->]]]]; apply Z.leb_le; reflexivity. }
    repeat split; intros; try lia; contradiction.
  - apply Qltb_ge in E5, E7.
    assert (B1 : ~ (c < 5 # 10)%Q) by lra. assert (B2 : ~ (c < 7 # 10)%Q) by lra.
    pose proof (estimate_in_range 0 3 n1 Hn1 ltac:(cbn; tauto)).
    pose proof (estimate_in_range 2 10 n2 Hn2 ltac:(cbn; tauto)).
    pose proof (estimate_in_range 10 40 n3 Hn3 ltac:(cbn; tauto)).
    assert (4 <= int (inject_Z (2 + 10) / 2 + inject_Z n2)%Q).
    { rewrite int_midpoint.
      assert (En : n2 = -2 \/ n2 = -1 \/ n2 = 0 \/ n2 = 1 \/ n2 = 2) by lia.
      destruct En as [-> | [-> | [-> | [-> | ->]]]]; apply Z.leb_le; reflexivity. }
    assert (23 <= int (inject_Z (10 + 40) / 2 + inject_Z n3)%Q).
    { rewrite int_midpoint.
      assert (En : n3 = -2 \/ n3 = -1 \/ n3 = 0 \/ n3 = 1 \/ n3 = 2) by lia.
      destruct En as [-> | [-> | [-> | [-> | ->]]]]; apply Z.leb_le; reflexivity. }
    repeat split; intros; try lia; contradiction.
Qed.

Lemma estimated_counts_in_range_witness :
  let m : gmap Z Z :=
    <[3 := 26]> (<[2 := 7]> (<[1 := 2]>
      (<[0 := 1]> (<[1 := 0]> (<[2 := 0]> (<[3 := 0]> ∅)))))) in
  exists complexity v1 v2 v3,
    _calculate_complexity (lit "GGAAGACTCCAGTGGTAATC") = Ok complexity /\
    m !! 1 = Some v1 /\ m !! 2 = Some v2 /\ m !! 3 = Some v3 /\
    ((complexity < 5 # 10)%Q ->
     5 <= v1 <= 15 /\ 20 <= v2 <= 50 /\ 80 <= v3 <= 200) /\
    ((5 # 10 <= complexity)%Q -> (complexity < 7 # 10)%Q ->
     1 <= v1 <= 5 /\ 5 <= v2 <= 20 /\ 20 <= v3 <= 80) /\
    ((7 # 10 <= complexity)%Q ->
     0 <= v1 <= 3 /\ 2 <= v2 <= 10 /\ 10 <= v3 <= 40) /\
    0 <= v1 /\ v1 < v2 /\ v2 < v3.
Proof.
  apply (estimated_counts_in_range (stub_randint 1)
           (new_guide (lit "GGAAGACTCCAGTGGTAATC") (lit "TGG") (lit "chr17") 100 119 (lit "+"))
           0%nat 3%nat).
  - intros s. cbn [stub_randint fst]. lia.
  - vm_compute. reflexivity.
Defined.

End EstimatorFacts.

Section Complexity.
Import Py GuideM OffTarget.

Lemma kmers_fold_size (f : Z -> str) (l : list Z) (K0 : gset str) :
  (size (fold_left (fun (K : gset str) i => K ∪ {[ f i ]}) l K0) <= size K0 + List.length l)%nat.
Proof.
  revert K0. induction l as [|i l IH]; intros K0; cbn [fold_left List.length]; [lia|].
  specialize (IH (K0 ∪ {[ f i ]})).
  assert (Hs : (size (K0 ∪ {[ f i ]}) <= size K0 + 1)%nat).
  { rewrite size_union_alt.
    assert (H1 : (size (({[ f i ]} : gset str) ∖ K0) <= size ({[ f i ]} : gset str))%nat)
      by (apply subseteq_size, subseteq_difference_l; reflexivity).
    rewrite size_singleton in H1. lia. }
  lia.
Qed.

Lemma kmers_fold_subset (f : Z -> str) (l : list Z) (K0 : gset str) :
  K0 ⊆ fold_left (fun (K : gset str) i => K ∪ {[ f i ]}) l K0.
Proof.
  revert K0. induction l as [|i l IH]; intros K0; cbn [fold_left]; [reflexivity|].
  specialize (IH (K0 ∪ {[ f i ]})). set_solver.
Qed.

Lemma kmers_size (s : str) :
  4 <= len s -> (1 <= size (kmers_of s 4))%nat /\ Z.of_nat (size (kmers_of s 4)) <= len s - 3.
Proof.
  intros Hl. unfold kmers_of, range. split.
  - destruct (Z.to_nat (len s - 4 + 1)) as [|n] eqn:En; [lia|].
    cbn [seq map fold_left].
    match goal with |- (1 <= size ?X)%nat => assert (Hne : size X <> 0%nat); [|lia] end.
    apply size_non_empty_iff.
    pose proof (kmers_fold_subset (fun i => slice s i (i + 4)) (map Z.of_nat (seq 1 n))
                                  (∅ ∪ {[ slice s (Z.of_nat 0) (Z.of_nat 0 + 4) ]})) as Hsub.
    cbv beta in Hsub. set_solver.
  - pose proof (kmers_fold_size (fun i => slice s i (i + 4))
                                (map Z.of_nat (seq 0 (Z.to_nat (len s - 4 + 1)))) ∅) as Hs.
    rewrite size_empty, List.length_map, List.length_seq in Hs. lia.
Qed.

(** For a sequence of 4 to 259 symbols the complexity score is defined and
    lies in (0, 1]. *)
Theorem complexity_in_unit_interval (s : str) :
  4 <= len s <= 259 ->
  exists c, _calculate_complexity s = Ok c /\ (0 < c)%Q /\ (c <= 1)%Q.
Proof.
  intros [Hlo Hhi]. unfold _calculate_complexity.
  change (4 ^ 4) with 256. rewrite Z.min_r by lia.
  replace (len s - 4 + 1) with (len s - 3) by lia.
  rewrite truediv_ok by lia. cbn [bind]. rewrite truediv_ok by lia. cbn [bind].
  eexists. split; [reflexivity|].
  pose proof (kmers_size s Hlo) as [H1 H2].
  set (n := Z.of_nat (size (kmers_of s 4))) in *.
  assert (Hn : 1 <= n) by lia.
  assert (Hd : (0 < inject_Z (len s - 3))%Q) by (rewrite <- (Zlt_Qlt 0); lia).
  assert (H0 : (0 < inject_Z n / inject_Z (len s - 3))%Q /\
               (inject_Z n / inject_Z (len s - 3) <= 1)%Q).
  { split.
    - apply Qlt_shift_div_l; [exact Hd|]. rewrite Qmult_0_l. rewrite <- (Zlt_Qlt 0). lia.
    - apply Qle_shift_div_r; [exact Hd|]. rewrite Qmult_1_l. rewrite <- Zle_Qle. lia. }
  set (c0 := (inject_Z n / inject_Z (len s - 3))%Q) in *.
  assert (H8 : forall (b : bool) (c : Q),
             (0 < c)%Q /\ (c <= 1)%Q ->
             (0 < (if b then c * (8 # 10) else c))%Q /\
             ((if b then c * (8 # 10) else c) <= 1)%Q)
    by (intros [] c [? ?]; split; lra).
  assert (H7 : forall (b : bool) (c : Q),
             (0 < c)%Q /\ (c <= 1)%Q ->
             (0 < (if b then c * (7 # 10) else c))%Q /\
             ((if b then c * (7 # 10) else c) <= 1)%Q)
    by (intros [] c [? ?]; split; lra).
  unfold bases. cbn [fold_left].
  repeat apply H7. apply H8. exact H0.
Qed.

Lemma complexity_in_unit_interval_witness :
  exists c, _calculate_complexity (lit "AAAAACCCCCGGGGGTTTTT") = Ok c /\ (0 < c)%Q /\ (c <= 1)%Q.
Proof.
  apply (complexity_in_unit_interval (lit "AAAAACCCCCGGGGGTTTTT")).
  vm_compute. split; discriminate.
Defined.

End Complexity.

Section SearchBatch.
Import Py GuideM Extract OffTarget.
Context {RNG : Type} (randint : randint_t RNG).

Lemma search_off_targets_keys (guide : Guide) (st st' : RNG) (m : gmap Z Z) :
  search_off_targets randint guide st = Ok (m, st') ->
  dom m = ({[0; 1; 2; 3]} : gset Z) /\ m !! 0 = Some 1.
Proof.
  unfold search_off_targets.
  destruct (_calculate_complexity (sequence guide)) as [c|e]; cbn [bind]; [|discriminate].
  destruct (Qltb c (5 # 10)); [|destruct (Qltb c (7 # 10))]; intros [= E];
    match type of E with estimate3 ?r ?m0 ?r1 ?r2 ?r3 ?s = _ =>
      pose proof (branch_shape r m0 r1 r2 r3 s eq_refl) as (Hd & Hz & _);
      rewrite E in Hd, Hz end; now split.
Qed.

Lemma search_batch_found (guides found : list Guide) (st st' : RNG) :
  search_batch randint guides st = Ok (found, st') ->
  Forall2 (fun g g' => g' = set_off_targets g (off_targets g') /\
                       dom (off_targets g') = ({[0; 1; 2; 3]} : gset Z) /\
                       off_targets g' !! 0 = Some 1) guides found.
Proof.
  revert found st st'. induction guides as [|g guides IH]; intros found st st';
    cbn [search_batch].
  - intros [= <- _]. constructor.
  - destruct (search_off_targets randint g st) as [[m st1]|e] eqn:Eg; cbn [bind];
      [|discriminate].
    cbn [fst snd].
    destruct (search_batch randint guides st1) as [[rest st2]|e] eqn:Er; cbn [bind];
      [|discriminate].
    intros [= <- _]. constructor; [|now apply (IH rest st1 st2)].
    cbn [off_targets set_off_targets]. split; [reflexivity|].
    now apply (search_off_targets_keys g st st1).
Qed.

Lemma search_batch_ok (guides : list Guide) (st : RNG) :
  Forall (fun g => len (sequence g) <> 0 /\ len (sequence g) <> 3) guides ->
  exists found st', search_batch randint guides st = Ok (found, st').
Proof.
  intros H. revert st. induction H as [|g guides [H0 H3] _ IH]; intros st;
    cbn [search_batch]; [eauto|].
  destruct (search_off_targets_ok randint g st H0 H3) as (m & st1 & Eg).
  rewrite Eg. cbn [bind snd].
  destruct (IH st1) as (rest & st2 & Er). rewrite Er. cbn [bind]. eauto.
Qed.

(** [search_batch] succeeds exactly when no guide has 0 or 3 symbols; it
    then returns the guides in the same order, each changed only in its
    [off_targets], a mapping with exactly the keys 0, 1, 2, 3 and with 1
    at key 0. A guide of 0 or 3 symbols makes the whole batch raise
    ZeroDivisionError. *)
Theorem search_batch_succeeds_iff (guides : list Guide) (st : RNG) :
  ((exists found st', search_batch randint guides st = Ok (found, st')) <->
   Forall (fun g => len (sequence g) <> 0 /\ len (sequence g) <> 3) guides) /\
  (Exists (fun g => len (sequence g) = 0 \/ len (sequence g) = 3) guides ->
   search_batch randint guides st = Raise ZeroDivisionError) /\
  (forall found st', search_batch randint guides st = Ok (found, st') ->
     Forall2 (fun g g' => g' = set_off_targets g (off_targets g') /\
                          dom (off_targets g') = ({[0; 1; 2; 3]} : gset Z) /\
                          off_targets g' !! 0 = Some 1) guides found).
Proof.
  split; [split|split].
  - intros (found & st' & E). revert found st st' E.
    induction guides as [|g guides IH]; intros found st st' E; constructor.
    + cbn [search_batch] in E.
      destruct (Z.eq_dec (len (sequence g)) 0) as [H0 | H0];
        [rewrite (search_off_targets_raises randint g st (or_introl H0)) in E;
         discriminate|].
      destruct (Z.eq_dec (len (sequence g)) 3) as [H3 | H3];
        [rewrite (search_off_targets_raises randint g st (or_intror H3)) in E;
         discriminate|].
      now split.
    + cbn [search_batch] in E.
      destruct (search_off_targets randint g st) as [[m st1]|e]; cbn [bind] in E;
        [|discriminate].
      cbn [snd] in E.
      destruct (search_batch randint guides st1) as [[rest st2]|e] eqn:Er;
        cbn [bind] in E; [|discriminate].
      now apply (IH rest st1 st2).
  - apply search_batch_ok.
  - revert st. induction guides as [|g guides IH]; intros st Hex; [inversion Hex|].
    cbn [search_batch].
    destruct (Z.eq_dec (len (sequence g)) 0) as [H0 | H0];
      [now rewrite (search_off_targets_raises randint g st (or_introl H0))|].
    destruct (Z.eq_dec (len (sequence g)) 3) as [H3 | H3];
      [now rewrite (search_off_targets_raises randint g st (or_intror H3))|].
    destruct (search_off_targets_ok randint g st H0 H3) as (m & st1 & Eg).
    rewrite Eg. cbn [bind snd].
    inversion Hex as [? ? Hh | ? ? Ht]; subst; [lia|].
    now rewrite (IH st1 Ht).
  - intros found st'. apply search_batch_found.
Qed.

(** The scan feeds the off-target estimator safely: unless the guide
    length is 0 or 3, [search_batch] on the result of [extract_guides]
    returns a list of the same length, whatever the generator. *)
Theorem search_batch_after_extract
    (sequence chromosome : str) (start_position : Z) (gene_name : option str)
    (pam_type : str) (guide_length : Z) (apply_filters : bool) (st : RNG) :
  guide_length <> 0 -> guide_length <> 3 ->
  exists found st',
    search_batch randint
      (extract_guides sequence chromosome start_position gene_name pam_type
                      guide_length apply_filters) st = Ok (found, st') /\
    List.length found
    = List.length (extract_guides sequence chromosome start_position gene_name pam_type
                                  guide_length apply_filters).
Proof.
  intros H0 H3.
  destruct (search_batch_ok
              (extract_guides sequence chromosome start_position gene_name pam_type
                              guide_length apply_filters) st) as (found & st' & E).
  - apply List.Forall_forall. intros g Hg.
    now rewrite (emitted_sequence_len _ _ _ _ _ _ _ _ Hg).
  - exists found, st'. split; [exact E|].
    apply search_batch_found in E. symmetry. eapply Forall2_length. exact E.
Qed.

End SearchBatch.

Section SearchBatchWitness.
Import Py GuideM Extract OffTarget.

Lemma search_batch_after_extract_witness :
  exists found st',
    search_batch (stub_randint 0)
      (extract_guides (lit "ACGTACGTACGTACGTACGTAGGCCCGGGAAATTTGGG") (lit "chr1") 1 None
                      (lit "SpCas9") 20 true) 0%nat = Ok (found, st') /\
    List.length found
    = List.length (extract_guides (lit "ACGTACGTACGTACGTACGTAGGCCCGGGAAATTTGGG") (lit "chr1")
                                  1 None (lit "SpCas9") 20 true).
Proof.
  apply (search_batch_after_extract (stub_randint 0)
           (lit "ACGTACGTACGTACGTACGTAGGCCCGGGAAATTTGGG") (lit "chr1") 1 None
           (lit "SpCas9") 20 true 0%nat); lia.
Defined.

End SearchBatchWitness.

(* ===================================================================== *)
(** * More on the ranker *)
(* ===================================================================== *)

Section RankMore.
Import Py GuideM Rank.

Lemma key_le_efficiency (a b : Guide) :
  key_le (sort_key a) (sort_key b) -> (efficiency_score b <= efficiency_score a)%Q.
Proof.
  unfold sort_key, key_le. intros [H | [H _]]; lra.
Qed.

(** Ranking keeps the number of guides, and the first guide of the ranking
    has the highest efficiency score of all, the last one the lowest. *)
Theorem rank_guides_best_first (guides : list Guide) :
  List.length (rank_guides guides) = List.length guides /\
  (forall best rest, rank_guides guides = best :: rest ->
     forall g, In g guides -> (efficiency_score g <= efficiency_score best)%Q) /\
  (forall front worst, rank_guides guides = front ++ [worst] ->
     forall g, In g guides -> (efficiency_score worst <= efficiency_score g)%Q).
Proof.
  unfold rank_guides.
  pose proof (sorted_perm sort_key guides) as Hperm.
  pose proof (sorted_sorted sort_key guides) as Hsort.
  split; [now apply Permutation_length|]. split.
  - intros best rest E g Hg. rewrite E in Hperm, Hsort.
    apply (Permutation_in _ (Permutation_sym Hperm)) in Hg.
    destruct Hg as [<- | Hg]; [lra|].
    apply StronglySorted_inv in Hsort. destruct Hsort as [_ Hall].
    rewrite List.Forall_forall in Hall. apply key_le_efficiency. now apply Hall.
  - intros front worst E g Hg. rewrite E in Hperm, Hsort.
    apply (Permutation_in _ (Permutation_sym Hperm)) in Hg.
    apply in_app_or in Hg. destruct Hg as [Hg | [<- | []]]; [|lra].
    clear E Hperm. induction front as [|x front IH]; [contradiction|].
    cbn [app] in Hsort. apply StronglySorted_inv in Hsort. destruct Hsort as [Hs Hall].
    destruct Hg as [<- | Hg]; [|now apply IH].
    rewrite List.Forall_forall in Hall. apply key_le_efficiency, Hall.
    apply in_or_app. right. now left.
Qed.

Lemma slice_list_to {A : Type} (l : list A) (n : Z) :
  0 <= n -> slice_list l 0 n = firstn (Z.to_nat n) l.
Proof.
  intros Hn. unfold slice_list, norm_bound.
  destruct (Z.ltb_spec 0 0); [lia|]. destruct (Z.ltb_spec n 0); [lia|].
  rewrite (Z.min_l 0) by lia. change (Z.to_nat 0) with 0%nat. rewrite List.skipn_O.
  destruct (Z.le_gt_cases n (Z.of_nat (List.length l))) as [Hle | Hgt].
  - rewrite Z.min_l by lia. f_equal. lia.
  - rewrite Z.min_r by lia. rewrite !List.firstn_all2 by lia. reflexivity.
Qed.

(** [select_top_guides] with a count [top_n >= 0] returns the first
    [min(top_n, len(guides))] guides; with a negative count it does not
    return an empty list but drops the last [-top_n] guides. *)
Theorem select_top_guides_prefix (guides : list Guide) (top_n : Z) :
  (0 <= top_n ->
   select_top_guides guides top_n = firstn (Z.to_nat top_n) guides /\
   Z.of_nat (List.length (select_top_guides guides top_n))
   = Z.min top_n (Z.of_nat (List.length guides))) /\
  (top_n < 0 ->
   select_top_guides guides top_n
   = firstn (List.length guides - Z.to_nat (- top_n)) guides).
Proof.
  unfold select_top_guides. split.
  - intros Hn. rewrite slice_list_to by exact Hn. split; [reflexivity|].
    rewrite List.length_firstn. lia.
  - intros Hn. unfold slice_list, norm_bound.
    destruct (Z.ltb_spec 0 0); [lia|]. destruct (Z.ltb_spec top_n 0); [|lia].
    rewrite (Z.min_l 0) by lia. change (Z.to_nat 0) with 0%nat. rewrite List.skipn_O.
    f_equal. lia.
Qed.

(** The top N of a ranking are the N best: every selected guide precedes
    every guide that is left out in the order of the sort key, and so has
    an efficiency score at least as high. *)
Theorem top_guides_are_best (guides : list Guide) (top_n : Z) :
  0 <= top_n ->
  exists rest,
    rank_guides guides = select_top_guides (rank_guides guides) top_n ++ rest /\
    forall a b, In a (select_top_guides (rank_guides guides) top_n) -> In b rest ->
      key_le (sort_key a) (sort_key b) /\
      (efficiency_score b <= efficiency_score a)%Q.
Proof.
  intros Hn. unfold select_top_guides. rewrite slice_list_to by exact Hn.
  exists (skipn (Z.to_nat top_n) (rank_guides guides)).
  split; [now rewrite List.firstn_skipn|].
  pose proof (sorted_sorted sort_key guides) as Hsort.
  fold (rank_guides guides) in Hsort.
  rewrite <- (List.firstn_skipn (Z.to_nat top_n) (rank_guides guides)) in Hsort.
  revert Hsort.
  generalize (firstn (Z.to_nat top_n) (rank_guides guides)) as front.
  generalize (skipn (Z.to_nat top_n) (rank_guides guides)) as back.
  intros back front Hsort a b Ha Hb.
  assert (Hk : key_le (sort_key a) (sort_key b)).
  { induction front as [|x front IH]; [contradiction|].
    cbn [app] in Hsort. apply StronglySorted_inv in Hsort. destruct Hsort as [Hs Hall].
    destruct Ha as [<- | Ha]; [|now apply IH].
    rewrite List.Forall_forall in Hall. apply Hall, in_or_app. now right. }
  split; [exact Hk | now apply key_le_efficiency].
Qed.

Lemma top_guides_are_best_witness :
  let mk := fun (score : Q) (st : Z) (m : gmap Z Z) =>
    set_off_targets
      (set_efficiency_score
         (new_guide (lit "GGAAGACTCCAGTGGTAATC") (lit "TGG") (lit "chr1") st (st + 19) (lit "+"))
         score) m in
  let guides :=
    [mk 80%Q 100 (<[0 := 1]> (<[1 := 2]> (<[2 := 5]> (<[3 := 10]> ∅))));
     mk 90%Q 200 (<[0 := 1]> (<[1 := 1]> (<[2 := 3]> (<[3 := 8]> ∅))));
     mk 85%Q 300 (<[0 := 1]> (<[1 := 5]> (<[2 := 10]> (<[3 := 20]> ∅))))] in
  exists rest,
    rank_guides guides = select_top_guides (rank_guides guides) 2 ++ rest /\
    forall a b, In a (select_top_guides (rank_guides guides) 2) -> In b rest ->
      key_le (sort_key a) (sort_key b) /\
      (efficiency_score b <= efficiency_score a)%Q.
Proof.
  cbv zeta. apply top_guides_are_best. lia.
Defined.

End RankMore.

Section SpecificityFilter.
Import Py GuideM Rank.

Lemma specificity_filter_body_app a b filtered guide :
  specificity_filter_body a b filtered guide
  = filtered ++ specificity_filter_body a b [] guide.
Proof.
  unfold specificity_filter_body.
  destruct ((get0 (off_targets guide) 1 <=? a) && (get0 (off_targets guide) 2 <=? b));
    cbn [app]; now rewrite ?List.app_nil_r.
Qed.

Lemma filter_by_specificity_filter (guides : list Guide) (a b : Z) :
  filter_by_specificity guides a b
  = List.filter (fun g => (get0 (off_targets g) 1 <=? a) && (get0 (off_targets g) 2 <=? b))
                guides.
Proof.
  unfold filter_by_specificity.
  rewrite (fold_left_flat_map _ (specificity_filter_body_app a b)). cbn [app].
  induction guides as [|g guides IH]; [reflexivity|].
  cbn [flat_map List.filter]. rewrite IH. unfold specificity_filter_body.
  now destruct ((get0 (off_targets g) 1 <=? a) && (get0 (off_targets g) 2 <=? b)).
Qed.

Lemma filter_sorted {A : Type} (R : A -> A -> Prop) (f : A -> bool) (l : list A) :
  StronglySorted R l -> StronglySorted R (List.filter f l).
Proof.
  induction 1 as [|x l Hs IH Hx]; cbn [List.filter]; [constructor|].
  destruct (f x); [|exact IH].
  constructor; [exact IH|].
  rewrite List.Forall_forall in *. intros y Hy. apply Hx.
  apply List.filter_In in Hy. tauto.
Qed.

Lemma insert_by_head {A : Type} (key : A -> Q * Z * Z) (x : A) (l : list A) :
  (forall z, In z l -> key_ltb (key z) (key x) = false) -> insert_by key x l = x :: l.
Proof.
  destruct l as [|z l]; [reflexivity|]. intros H. cbn [insert_by].
  now rewrite (H z (or_introl eq_refl)).
Qed.

Lemma filter_insert_by {A : Type} (key : A -> Q * Z * Z) (f : A -> bool) (x : A) (l : list A) :
  StronglySorted (ascending key) l ->
  List.filter f (insert_by key x l)
  = if f x then insert_by key x (List.filter f l) else List.filter f l.
Proof.
  induction 1 as [|y l Hs IH Hy]; [cbn; now destruct (f x)|].
  cbn [insert_by]. destruct (key_ltb (key y) (key x)) eqn:E.
  - cbn [List.filter]. rewrite IH.
    destruct (f y), (f x); cbn [insert_by]; now rewrite ?E.
  - change (List.filter f (x :: y :: l))
      with (if f x then x :: List.filter f (y :: l) else List.filter f (y :: l)).
    destruct (f x); [|reflexivity].
    symmetry. apply insert_by_head. intros z Hz.
    apply List.filter_In in Hz. destruct Hz as [Hz _].
    apply key_ltb_false_le in E.
    destruct Hz as [<- | Hz]; [now apply key_le_ltb_false|].
    rewrite List.Forall_forall in Hy.
    apply key_le_ltb_false, (key_le_trans _ (key y)); [exact E | now apply Hy].
Qed.

Lemma filter_sorted_commute {A : Type} (key : A -> Q * Z * Z) (f : A -> bool) (l : list A) :
  List.filter f (sorted key l) = sorted key (List.filter f l).
Proof.
  induction l as [|x l IH]; [reflexivity|].
  cbn [sorted List.filter].
  rewrite filter_insert_by by apply sorted_sorted.
  destruct (f x); cbn [sorted]; now rewrite IH.
Qed.

(** [filter_by_specificity] keeps exactly the guides whose 1-mismatch and
    2-mismatch counts (0 when the key is missing) do not exceed the
    thresholds, and it keeps them in their order: whatever order relation
    the input is sorted by, the output is sorted by it too. Filtering and
    ranking commute: filtering a ranking gives the ranking of the filtered
    guides. *)
Theorem filter_by_specificity_keeps_order (guides : list Guide) (max_1mm max_2mm : Z) :
  (forall g, In g (filter_by_specificity guides max_1mm max_2mm) <->
             In g guides /\ get0 (off_targets g) 1 <= max_1mm /\
             get0 (off_targets g) 2 <= max_2mm) /\
  (forall R : Guide -> Guide -> Prop,
     StronglySorted R guides ->
     StronglySorted R (filter_by_specificity guides max_1mm max_2mm)) /\
  filter_by_specificity (rank_guides guides) max_1mm max_2mm
  = rank_guides (filter_by_specificity guides max_1mm max_2mm).
Proof.
  rewrite !filter_by_specificity_filter. split; [|split].
  - intros g. rewrite List.filter_In, andb_true_iff, !Z.leb_le. tauto.
  - intros R. apply filter_sorted.
  - unfold rank_guides. apply filter_sorted_commute.
Qed.

End SpecificityFilter.

Section Specificity.
Import Py GuideM Rank.
Local Open Scope Q_scope.

Lemma clamp_comp (x y : Q) : x == y -> max 0 (min 100 x) == max 0 (min 100 y).
Proof.
  intros E. unfold max, min, Qltb.
  rewrite (Qcompare_comp _ _ E 100 100 (Qeq_refl _)).
  destruct (y ?= 100) eqn:E1.
  - reflexivity.
  - rewrite (Qcompare_comp 0 0 (Qeq_refl _) _ _ E).
    destruct (0 ?= y); [reflexivity | exact E | reflexivity].
  - reflexivity.
Qed.

(** What one round of the loop subtracts. *)
Lemma specificity_body_sub (k v : Z) :
  exists d, forall score, specificity_body k v score == score - d.
Proof.
  unfold specificity_body.
  destruct (k =? 0)%Z; [destruct (1 <? v)%Z|].
  - eexists. intros score. reflexivity.
  - exists 0. intros score. ring.
  - eexists. intros score. reflexivity.
Qed.

Lemma specificity_body_proper (k v : Z) : Proper (Qeq ==> Qeq) (specificity_body k v).
Proof.
  intros x y E. destruct (specificity_body_sub k v) as [d Hd].
  now rewrite !Hd, E.
Qed.

Lemma specificity_body_comm (k1 k2 v1 v2 : Z) (y : Q) :
  specificity_body k1 v1 (specificity_body k2 v2 y)
  == specificity_body k2 v2 (specificity_body k1 v1 y).
Proof.
  destruct (specificity_body_sub k1 v1) as [d1 H1].
  destruct (specificity_body_sub k2 v2) as [d2 H2].
  rewrite (H1 (specificity_body k2 v2 y)), (H2 y), (H2 (specificity_body k1 v1 y)), (H1 y).
  ring.
Qed.

Lemma four_key_map (m : gmap Z Z) (c0 c1 c2 c3 : Z) :
  dom m = ({[0; 1; 2; 3]} : gset Z)%Z ->
  m !! 0%Z = Some c0 -> m !! 1%Z = Some c1 -> m !! 2%Z = Some c2 -> m !! 3%Z = Some c3 ->
  m = <[0%Z := c0]> (<[1%Z := c1]> (<[2%Z := c2]> (<[3%Z := c3]> ∅))).
Proof.
  intros Hd H0 H1 H2 H3. apply map_eq. intros i.
  destruct (decide (i = 0%Z)) as [->|N0]; [now rewrite lookup_insert_eq|].
  rewrite lookup_insert_ne by congruence.
  destruct (decide (i = 1%Z)) as [->|N1]; [now rewrite lookup_insert_eq|].
  rewrite lookup_insert_ne by congruence.
  destruct (decide (i = 2%Z)) as [->|N2]; [now rewrite lookup_insert_eq|].
  rewrite lookup_insert_ne by congruence.
  destruct (decide (i = 3%Z)) as [->|N3]; [now rewrite lookup_insert_eq|].
  rewrite lookup_insert_ne by congruence. rewrite lookup_empty.
  apply not_elem_of_dom. rewrite Hd.
  rewrite !not_elem_of_union, !not_elem_of_singleton. tauto.
Qed.

Lemma specificity_fold (c0 c1 c2 c3 : Z) :
  map_fold specificity_body 100
           (<[0%Z := c0]> (<[1%Z := c1]> (<[2%Z := c2]> (<[3%Z := c3]> (∅ : gmap Z Z)))))
  == 100 - (if (1 <? c0)%Z then inject_Z (c0 - 1) * 100 else 0)
         - inject_Z c1 * 20 - inject_Z c2 * 5 - inject_Z c3 * 1.
Proof.
  assert (Hins : forall (i : Z) (x : Z) (m : gmap Z Z),
             m !! i = None ->
             map_fold specificity_body 100 (<[i := x]> m)
             == specificity_body i x (map_fold specificity_body 100 m)).
  { intros i x m Hi.
    apply (map_fold_insert Qeq specificity_body 100 i x m); [| |exact Hi].
    - intros j z. apply specificity_body_proper.
    - intros j1 j2 z1 z2 y _ _ _. apply specificity_body_comm. }
  assert (E3 : map_fold specificity_body 100 (<[3%Z := c3]> (∅ : gmap Z Z))
               == specificity_body 3 c3 100).
  { rewrite Hins by apply lookup_empty. now rewrite map_fold_empty. }
  assert (E2 : map_fold specificity_body 100 (<[2%Z := c2]> (<[3%Z := c3]> (∅ : gmap Z Z)))
               == specificity_body 2 c2 (specificity_body 3 c3 100)).
  { rewrite Hins by (rewrite lookup_insert_ne by lia; apply lookup_empty).
    now apply specificity_body_proper. }
  assert (E1 : map_fold specificity_body 100
                 (<[1%Z := c1]> (<[2%Z := c2]> (<[3%Z := c3]> (∅ : gmap Z Z))))
               == specificity_body 1 c1 (specificity_body 2 c2 (specificity_body 3 c3 100))).
  { rewrite Hins by (rewrite !lookup_insert_ne by lia; apply lookup_empty).
    now apply specificity_body_proper. }
  rewrite Hins by (rewrite !lookup_insert_ne by lia; apply lookup_empty).
  rewrite (specificity_body_proper 0 c0 _ _ E1).
  unfold specificity_body.
  change (0 =? 0)%Z with true. change (1 =? 0)%Z with false.
  change (2 =? 0)%Z with false. change (3 =? 0)%Z with false. cbv iota.
  change (default 0 (penalties !! 0%Z)) with 100.
  change (default 0 (penalties !! 1%Z)) with 20.
  change (default 0 (penalties !! 2%Z)) with 5.
  change (default 0 (penalties !! 3%Z)) with 1.
  destruct (1 <? c0)%Z; ring.
Qed.

Lemma specificity_value (guide : Guide) (c0 c1 c2 c3 : Z) :
  dom (off_targets guide) = ({[0; 1; 2; 3]} : gset Z)%Z ->
  off_targets guide !! 0%Z = Some c0 -> off_targets guide !! 1%Z = Some c1 ->
  off_targets guide !! 2%Z = Some c2 -> off_targets guide !! 3%Z = Some c3 ->
  calculate_specificity_score guide
  == max 0 (min 100 (100 - (if (1 <? c0)%Z then inject_Z (c0 - 1) * 100 else 0)
                         - inject_Z c1 * 20 - inject_Z c2 * 5 - inject_Z c3 * 1)).
Proof.
  intros Hd H0 H1 H2 H3. unfold calculate_specificity_score.
  rewrite (four_key_map _ c0 c1 c2 c3 Hd H0 H1 H2 H3).
  apply clamp_comp, specificity_fold.
Qed.

(** The specificity score of a guide whose off-target mapping has exactly
    the keys 0, 1, 2, 3: 100, minus 100 for every exact match beyond the
    first, 20 for every 1-mismatch, 5 for every 2-mismatch and 1 for every
    3-mismatch off-target, clamped to [0, 100]. *)
Theorem specificity_score_formula (guide : Guide) (c0 c1 c2 c3 : Z) :
  dom (off_targets guide) = ({[0; 1; 2; 3]} : gset Z)%Z ->
  off_targets guide !! 0%Z = Some c0 -> off_targets guide !! 1%Z = Some c1 ->
  off_targets guide !! 2%Z = Some c2 -> off_targets guide !! 3%Z = Some c3 ->
  calculate_specificity_score guide
  == max 0 (min 100 (100 - (if (1 <? c0)%Z then inject_Z (c0 - 1) * 100 else 0)
                         - inject_Z c1 * 20 - inject_Z c2 * 5 - inject_Z c3 * 1)).
Proof. apply specificity_value. Qed.

Lemma specificity_score_formula_witness :
  calculate_specificity_score
    (set_off_targets
       (new_guide (lit "GGAAGACTCCAGTGGTAATC") (lit "TGG") (lit "chr17") 100 119 (lit "+"))
       (<[0%Z := 1%Z]> (<[1%Z := 2%Z]> (<[2%Z := 8%Z]> (<[3%Z := 34%Z]> ∅)))))
  == max 0 (min 100 (100 - (if (1 <? 1)%Z then inject_Z (1 - 1) * 100 else 0)
                         - inject_Z 2 * 20 - inject_Z 8 * 5 - inject_Z 34 * 1)).
Proof.
  apply (specificity_score_formula
           (set_off_targets
              (new_guide (lit "GGAAGACTCCAGTGGTAATC") (lit "TGG") (lit "chr17") 100 119
                         (lit "+"))
              (<[0%Z := 1%Z]> (<[1%Z := 2%Z]> (<[2%Z := 8%Z]> (<[3%Z := 34%Z]> ∅)))))
           1 2 8 34); reflexivity.
Defined.

Lemma round2_range (x : Q) (lo hi : Z) :
  inject_Z lo <= x -> x <= inject_Z hi ->
  inject_Z lo <= round2 x /\ round2 x <= inject_Z hi.
Proof.
  intros Hlo Hhi. unfold round2.
  assert (H1 : (lo * 100 <= round_half_even (x * 100))%Z).
  { apply round_half_even_ge. rewrite inject_Z_mult. change (inject_Z 100) with 100. lra. }
  assert (H2 : (round_half_even (x * 100) <= hi * 100)%Z).
  { apply round_half_even_le. rewrite inject_Z_mult. change (inject_Z 100) with 100. lra. }
  rewrite Zle_Qle, inject_Z_mult in H1, H2. change (inject_Z 100) with 100 in H1, H2.
  split.
  - apply Qle_shift_div_l; [reflexivity | exact H1].
  - apply Qle_shift_div_r; [reflexivity | exact H2].
Qed.

(** The specificity score always lies in [0, 100], and so does the
    composite score (with the default weights 0.6 and 0.4) of a guide
    whose efficiency score lies in [0, 100]. *)
Theorem composite_score_range (guide : Guide) :
  0 <= efficiency_score guide -> efficiency_score guide <= 100 ->
  (0 <= calculate_specificity_score guide /\ calculate_specificity_score guide <= 100) /\
  (0 <= calculate_composite_score guide /\ calculate_composite_score guide <= 100).
Proof.
  intros H0 H100.
  assert (Hs : 0 <= calculate_specificity_score guide /\
               calculate_specificity_score guide <= 100)
    by apply clamp_range.
  split; [exact Hs|]. unfold calculate_composite_score.
  apply (round2_range _ 0 100).
  - change (inject_Z 0) with 0. lra.
  - change (inject_Z 100) with 100. lra.
Qed.

Lemma composite_score_range_witness :
  let guide :=
    set_off_targets
      (set_efficiency_score
         (new_guide (lit "GGAAGACTCCAGTGGTAATC") (lit "TGG") (lit "chr17") 100 119 (lit "+"))
         (812 # 10))
      (<[0%Z := 1%Z]> (<[1%Z := 2%Z]> (<[2%Z := 8%Z]> (<[3%Z := 34%Z]> ∅)))) in
  (0 <= calculate_specificity_score guide /\ calculate_specificity_score guide <= 100) /\
  (0 <= calculate_composite_score guide /\ calculate_composite_score guide <= 100).
Proof.
  cbv zeta. apply composite_score_range; discriminate.
Defined.

End Specificity.
